(** * A cache-aware HTTP fetch layer: HTTPCache and its collaborators

    Shallow embedding of [src/HTTPCache.ts], [src/utils/response-body.util.ts],
    [src/NoopKeyValueCache.ts] and the test store [FakeableTTLTestingCache].

    Modelling conventions.
    - JavaScript numbers that the code compares and multiplies (status codes,
      ages, milliseconds) are integers of [Z]. A TTL, which a caller gives
      as any number, is a [number]: an integer or [NaN], with the
      comparisons and the truthiness [NaN] has. Fractional values are
      outside the model.
    - [undefined] / [null] are [None]; JavaScript truthiness is written out
      ([truthy_num], [truthy_number], [truthy_str]).
    - A JavaScript object used as a dictionary whose enumeration order the
      code relies on ([Object.entries]) is an association list, updated in
      place by [obj_set]. Its keys are header names; a name that reads as
      an array index, which an object would list before the others, is
      outside the model.
    - An [async] function is a computation of the monad [M]: it threads the
      world (environment, store, trace of collaborator calls) and either
      returns or rejects. *)

From Stdlib Require Import ZArith List String Ascii Bool Lia.
From stdpp Require Import base option gmap strings list fin_maps.

Local Open Scope string_scope.
Local Open Scope list_scope.
Local Open Scope Z_scope.

(* ------------------------------------------------------------------ *)
(** ** Results of fallible computations *)

Inductive Res (A : Type) : Type :=
| Ok (a : A)
| Rejected (reason : string).
Arguments Ok {A} a.
Arguments Rejected {A} reason.

Definition res_map {A B} (f : A -> B) (r : Res A) : Res B :=
  match r with
  | Ok a => Ok (f a)
  | Rejected e => Rejected e
  end.

(* ------------------------------------------------------------------ *)
(** ** Strings *)

(** [String.prototype.toLowerCase] on the ASCII range; header names are
    compared through it. *)
Definition lower_ascii (c : ascii) : ascii :=
  let n := nat_of_ascii c in
  if (Nat.leb 65 n && Nat.leb n 90)%bool then ascii_of_nat (n + 32) else c.

Fixpoint toLowerCase (s : string) : string :=
  match s with
  | EmptyString => EmptyString
  | String c s' => String (lower_ascii c) (toLowerCase s')
  end.

(** [s.startsWith(p)] *)
Definition startsWith (s p : string) : bool := String.prefix p s.

(** [s.endsWith(p)] *)
Definition endsWith (s p : string) : bool :=
  let n := String.length s in
  let m := String.length p in
  (Nat.leb m n && String.eqb (String.substring (n - m) m s) p)%bool.

(** [values.join(', ')] *)
Definition join (sep : string) (l : list string) : string := String.concat sep l.

(** Truthiness of a string that may be [null]: [null] and [''] are falsy. *)
Definition truthy_str (o : option string) : bool :=
  match o with
  | Some s => negb (String.eqb s "")
  | None => false
  end.

(** Truthiness of a number that may be [undefined]: [undefined] and [0] are
    falsy. *)
Definition truthy_num (o : option Z) : bool :=
  match o with
  | Some n => negb (n =? 0)
  | None => false
  end.

(** A number as a caller can give it: an integer, or [NaN]. *)
Inductive number :=
| Int (z : Z)
| NaN.

(** Truthiness of a [number] that may be [undefined]: [undefined], [0] and
    [NaN] are falsy. *)
Definition truthy_number (o : option number) : bool :=
  match o with
  | Some (Int z) => negb (z =? 0)
  | Some NaN => false
  | None => false
  end.

(** The integer of a number; used where the number is known to be truthy. *)
Definition integer_of (o : option number) : Z :=
  match o with
  | Some (Int z) => z
  | _ => 0
  end.

(** [n <= 0]; a comparison with [NaN] is false. *)
Definition number_leb_zero (n : number) : bool :=
  match n with
  | Int z => z <=? 0
  | NaN => false
  end.

(** [a < n], for an integer [a]; a comparison with [NaN] is false. *)
Definition ltb_number (a : Z) (n : number) : bool :=
  match n with
  | Int z => a <? z
  | NaN => false
  end.

(** [n * 2] *)
Definition number_double (n : number) : number :=
  match n with
  | Int z => Int (z * 2)
  | NaN => NaN
  end.

(* ------------------------------------------------------------------ *)
(** ** Objects as ordered dictionaries *)

(** [o[k] = v]: an existing key keeps its place, a new key goes last. *)
Fixpoint obj_set {V} (o : list (string * V)) (k : string) (v : V)
  : list (string * V) :=
  match o with
  | [] => [(k, v)]
  | (k', v') :: o' =>
      if String.eqb k' k then (k', v) :: o' else (k', v') :: obj_set o' k v
  end.

Fixpoint obj_get {V} (o : list (string * V)) (k : string) : option V :=
  match o with
  | [] => None
  | (k', v') :: o' => if String.eqb k' k then Some v' else obj_get o' k
  end.

(* ------------------------------------------------------------------ *)
(** ** Header collections *)

(** [instanceof NodeFetchHeaders && 'raw' in headers], or any other
    implementation of the Fetch [Headers] interface. *)
Inductive HeadersImpl := NodeFetchHeaders | ForeignHeaders.

(** A [Headers] object: per name the values in the order they were
    appended. As in [node-fetch], a name keeps the spelling it was first
    given and is looked up without regard to case. *)
Record Headers := {
  impl : HeadersImpl;
  raw : list (string * list string)
}.

(** [find(map, name)] of [node-fetch], with the values under the name it
    finds: the first name of the map that is [name] up to case. *)
Fixpoint headers_find (l : list (string * list string)) (name : string)
  : option (string * list string) :=
  match l with
  | [] => None
  | (key, values) :: l' =>
      if String.eqb (toLowerCase key) (toLowerCase name)
      then Some (key, values)
      else headers_find l' name
  end.

(** [headers.get(name)]: the values joined by [', '], or [null]. *)
Definition headers_get (h : Headers) (name : string) : option string :=
  match headers_find (raw h) name with
  | Some (_, values) => Some (join ", " values)
  | None => None
  end.

(** [headers.has(name)] *)
Definition headers_has (h : Headers) (name : string) : bool :=
  match headers_find (raw h) name with
  | Some _ => true
  | None => false
  end.

(** [headers.append(name, value)]: under the name already there up to
    case, or under [name] as it is spelled. *)
Definition headers_append (l : list (string * list string))
  (name value : string) : list (string * list string) :=
  match headers_find l name with
  | Some (key, values) => obj_set l key (values ++ [value])
  | None => obj_set l name [value]
  end.

(** [new NodeFetchHeaders(pairs)] *)
Definition newNodeFetchHeaders (pairs : list (string * string)) : Headers :=
  {| impl := NodeFetchHeaders;
     raw := fold_left (fun acc p => headers_append acc (fst p) (snd p)) pairs [] |}.

(** [keys.sort()]: by insertion, in the order of the character codes. *)
Fixpoint insert_by_name (p : string * string) (l : list (string * string))
  : list (string * string) :=
  match l with
  | [] => [p]
  | q :: l' =>
      if String.leb (fst p) (fst q) then p :: q :: l' else q :: insert_by_name p l'
  end.

Definition sort_by_name (l : list (string * string)) : list (string * string) :=
  fold_right insert_by_name [] l.

(** Iterating a [Headers] object: one pair per name, the names in lower
    case and sorted, the values combined. *)
Definition headers_entries (h : Headers) : list (string * string) :=
  sort_by_name (map (fun p => (toLowerCase (fst p), join ", " (snd p))) (raw h)).

(* ------------------------------------------------------------------ *)
(** ** Bodies and responses *)

(** [object | string]: a parsed body is structured data (kept as the
    canonical text of the value) or raw text. *)
Inductive Body :=
| Structured (value : string)
| RawText (value : string).

(** A [FetcherResponse]: status, headers and the two body readers the code
    calls, [response.json()] and [response.text()], each of which resolves
    or rejects. *)
Record FetcherResponse := {
  url : option string;
  status : Z;
  response_headers : Headers;
  json : Res Body;
  text : Res Body
}.

(** The headers of a [node-fetch] response made with a string as body:
    those given, and the content type of a string unless one was given. *)
Definition withBodyContentType (h : Headers) : Headers :=
  if headers_has h "Content-Type" then h
  else {| impl := impl h;
          raw := headers_append (raw h) "Content-Type" "text/plain;charset=UTF-8" |}.

(** [new NodeFetchResponse('', { url, status, headers })]: an empty body
    reads as the empty text and is not valid JSON. The names and values of
    [hs] are taken to be legal in a header and [st] to be a status code, as
    those of a response that was received are; [node-fetch] throws on
    other names and values, and puts 200 for a status of 0. *)
Definition newNodeFetchResponse (u : option string) (st : Z)
  (hs : list (string * string)) : FetcherResponse :=
  {| url := u;
     status := st;
     response_headers := withBodyContentType (newNodeFetchHeaders hs);
     json := Rejected "Unexpected end of JSON input";
     text := Ok (RawText "") |}.

(* ------------------------------------------------------------------ *)
(** ** [parseResponseBody] (src/utils/response-body.util.ts) *)

Definition parseResponseBody (response : FetcherResponse) : Res Body :=
  let contentType := headers_get (response_headers response) "Content-Type" in
  let contentLength := headers_get (response_headers response) "Content-Length" in
  if (negb (status response =? 204)
      && negb (bool_decide (contentLength = Some "0"))
      && truthy_str contentType
      && match contentType with
         | Some ct => startsWith ct "application/json" || endsWith ct "+json"
         | None => false
         end)%bool
  then json response
  else text response.

(* ------------------------------------------------------------------ *)
(** ** Requests, cache options and policy descriptors *)

(** Modelled from the spec: [RequestOptions] is declared in
    [./RESTDataSource], which is not among the sources. Per-call knobs: the
    HTTP method (default GET), the headers, a flag to bypass the cache-read
    path, and the transport's own fields, opaque to the cache layer. *)
Record RequestOptions := {
  method : option string;
  headers : option (list (string * string));
  skipCache : option bool;
  init : list (string * string)
}.

(** Modelled from the spec: [CacheOptions] is declared in
    [./RESTDataSource] too. The recognized option is [ttl], in seconds; any
    other option is passed through to the store. *)
Record CacheOptions := {
  ttl : option number;
  others : list (string * string)
}.

(** [cacheOptions]: a value, or a function of the URL, the response and
    the request that resolves to a value or to [undefined]. *)
Inductive CacheOptionsOrFactory :=
| Static (co : CacheOptions)
| Computed (f : string -> FetcherResponse -> RequestOptions -> Res (option CacheOptions)).

(** A value of [CachePolicy.Headers]: a string, an array of strings for a
    repeated header, or [undefined]. *)
Inductive HeaderValue :=
| One (v : string)
| Many (vs : list string)
| Undefined.

Definition CachePolicyHeaders := list (string * HeaderValue).

Record PolicyRequest := {
  request_url : string;
  request_method : string;
  request_headers : CachePolicyHeaders
}.

Record PolicyResponse := {
  response_status : Z;
  response_policy_headers : CachePolicyHeaders
}.

(** [request.method ?? 'GET'], [request.headers ?? {}] *)
Definition policyRequestFrom (u : string) (request : RequestOptions)
  : PolicyRequest :=
  {| request_url := u;
     request_method := default "GET" (method request);
     request_headers :=
       map (fun p => (fst p, One (snd p))) (default [] (headers request)) |}.

(** De-singletonizes the headers of a [node-fetch] response. *)
Definition nodeFetchHeadersToCachePolicyHeaders (h : Headers)
  : CachePolicyHeaders :=
  fold_left
    (fun cachePolicyHeaders entry =>
       let '(name, values) := entry in
       obj_set cachePolicyHeaders name
         match values with
         | [v] => One v
         | _ => Many values
         end)
    (raw h) [].

(** [Object.fromEntries(response.headers)] *)
Definition objectFromEntries (h : Headers) : CachePolicyHeaders :=
  fold_left (fun o p => obj_set o (fst p) (One (snd p))) (headers_entries h) [].

Definition policyResponseFrom (response : FetcherResponse) : PolicyResponse :=
  {| response_status := status response;
     response_policy_headers :=
       match impl (response_headers response) with
       | NodeFetchHeaders =>
           nodeFetchHeadersToCachePolicyHeaders (response_headers response)
       | ForeignHeaders => objectFromEntries (response_headers response)
       end |}.

(** To a list of pairs, which keeps repeated headers apart. *)
Definition push_header (headerList : list (string * string))
  (entry : string * HeaderValue) : list (string * string) :=
  let '(name, value) := entry in
  match value with
  | Many vs => headerList ++ map (fun subValue => (name, subValue)) vs
  | One v => if truthy_str (Some v) then headerList ++ [(name, v)] else headerList
  | Undefined => headerList
  end.

Definition cachePolicyHeadersToNodeFetchHeadersInit (hs : CachePolicyHeaders)
  : list (string * string) :=
  fold_left push_header hs [].

(** To a record of strings, which is all a [Fetcher] accepts as headers. *)
Definition set_header (headerRecord : list (string * string))
  (entry : string * HeaderValue) : list (string * string) :=
  let '(name, value) := entry in
  match value with
  | Many vs => obj_set headerRecord name (join ", " vs)
  | One v => if truthy_str (Some v) then obj_set headerRecord name v else headerRecord
  | Undefined => headerRecord
  end.

Definition cachePolicyHeadersToFetcherHeadersInit (hs : CachePolicyHeaders)
  : list (string * string) :=
  fold_left set_header hs [].

Definition canBeRevalidated (response : FetcherResponse) : bool :=
  headers_has (response_headers response) "ETag"
  || headers_has (response_headers response) "Last-Modified".

(* ------------------------------------------------------------------ *)
(** ** The collaborators' interfaces *)

(** A [SneakyCachePolicy]: the two fields the cache layer reaches into and
    the evaluator's own state. *)
Record SneakyCachePolicy (R : Type) := {
  _url : option string;
  _status : Z;
  state : R
}.
Arguments _url {R} _.
Arguments _status {R} _.
Arguments state {R} _.

Definition clear_url {R} (p : SneakyCachePolicy R) : SneakyCachePolicy R :=
  {| _url := None; _status := _status p; state := state p |}.

(** The HTTP caching semantics evaluator ([http-cache-semantics]). [R] is
    its internal state, [O] its serialized form ([CachePolicyObject]) and
    [Cfg] its options. Every operation that reads the clock takes the
    current time in milliseconds first. *)
Class CachePolicyEvaluator (R O Cfg : Type) := {
  newCachePolicy :
    Z -> PolicyRequest -> PolicyResponse -> option Cfg -> Res (SneakyCachePolicy R);
  fromObject : O -> Res (SneakyCachePolicy R);
  toObject : SneakyCachePolicy R -> O;
  age : Z -> SneakyCachePolicy R -> Z;
  storable : SneakyCachePolicy R -> bool;
  timeToLive : Z -> SneakyCachePolicy R -> Z;
  satisfiesWithoutRevalidation : Z -> SneakyCachePolicy R -> PolicyRequest -> bool;
  responseHeaders : Z -> SneakyCachePolicy R -> CachePolicyHeaders;
  revalidationHeaders : SneakyCachePolicy R -> PolicyRequest -> CachePolicyHeaders;
  revalidatedPolicy :
    Z -> SneakyCachePolicy R -> PolicyRequest -> PolicyResponse ->
    Res (SneakyCachePolicy R * bool)
}.

(** A [CacheItem]: what the store holds per key. *)
Record CacheItem (O : Type) := {
  policy : O;
  ttlOverride : option number;
  body : Body
}.
Arguments policy {O} _.
Arguments ttlOverride {O} _.
Arguments body {O} _.

(** A [KeyValueCache<CacheItem, CacheOptions>] with state [S]; the first
    argument is the current time. *)
Class KeyValueCache (S O : Type) := {
  kv_get : Z -> string -> S -> Res (option (CacheItem O)) * S;
  kv_set : Z -> string -> CacheItem O -> option CacheOptions -> S -> Res unit * S;
  kv_delete : Z -> string -> S -> Res unit * S
}.

(** What lies outside the process: the clock ([Date.now()]) and the
    transport behind [httpFetch]. *)
Class Environment (N : Type) := {
  dateNow : N -> Z;
  httpFetch : string -> RequestOptions -> N -> Res FetcherResponse * N
}.

(* ------------------------------------------------------------------ *)
(** ** Stores of the repository *)

(** [NoopKeyValueCache] (src/NoopKeyValueCache.ts) *)
#[export] Instance NoopKeyValueCache {O} : KeyValueCache unit O := {
  kv_get _ _key s := (Ok None, s);
  kv_set _ _key _value _options s := (Ok (), s);
  kv_delete _ _key s := (Ok (), s)
}.

(** [FakeableTTLTestingCache]: a [Map] from keys to values with a deadline,
    expired on [get]. *)
Definition FakeableTTLTestingCache (O : Type) :=
  gmap string (CacheItem O * option Z).

Definition fakeable_delete {O} (key : string) (cache : FakeableTTLTestingCache O)
  : FakeableTTLTestingCache O :=
  delete key cache.

Definition fakeable_get {O} (now : Z) (key : string)
  (cache : FakeableTTLTestingCache O)
  : Res (option (CacheItem O)) * FakeableTTLTestingCache O :=
  match cache !! key with
  | None => (Ok None, cache)
  | Some (value, deadline) =>
      if (truthy_num deadline
          && match deadline with Some d => d <=? now | None => false end)%bool
      then (Ok None, fakeable_delete key cache)
      else (Ok (Some value), cache)
  end.

Definition fakeable_set {O} (now : Z) (key : string) (value : CacheItem O)
  (options : option CacheOptions) (cache : FakeableTTLTestingCache O)
  : Res unit * FakeableTTLTestingCache O :=
  let options := default {| ttl := None; others := [] |} options in
  (Ok (),
   <[key := (value,
             if truthy_number (ttl options)
             then Some (now + integer_of (ttl options) * 1000)
             else None)]> cache).

#[export] Instance FakeableKeyValueCache {O}
  : KeyValueCache (FakeableTTLTestingCache O) O := {
  kv_get := fakeable_get;
  kv_set := fakeable_set;
  kv_delete _ key cache := (Ok (), fakeable_delete key cache)
}.

(** [isEmpty()]: every key is read once, which drops the expired ones. *)
Definition fakeable_isEmpty {O} (now : Z) (cache : FakeableTTLTestingCache O)
  : bool * FakeableTTLTestingCache O :=
  let cache' :=
    fold_left (fun c key => snd (fakeable_get now key c))
      (map fst (map_to_list cache)) cache in
  (bool_decide (size cache' = 0%nat), cache').

(** Modelled from the spec: [PrefixingKeyValueCache] comes from
    [@apollo/utils.keyvaluecache]. Every key is handed to the wrapped store
    behind a fixed prefix, and nothing else changes. *)
Definition PrefixingKeyValueCache {S O} (wrapped : KeyValueCache S O)
  (prefix : string) : KeyValueCache S O := {|
  kv_get now key := @kv_get S O wrapped now (prefix +:+ key);
  kv_set now key := @kv_set S O wrapped now (prefix +:+ key);
  kv_delete now key := @kv_delete S O wrapped now (prefix +:+ key)
|}.

(* ------------------------------------------------------------------ *)
(** ** The world an [HTTPCache] runs in *)

(** Calls made to the collaborators, in the order they are made. The key
    of a [get] or [set] is the one given to [this.keyValueCache]; the
    wrapped store sees it behind the prefix. *)
Inductive Event (O : Type) :=
| EvFetch (u : string) (request : RequestOptions)
| EvGet (key : string)
| EvSet (key : string) (value : CacheItem O) (options : option CacheOptions)
| EvParse (response : FetcherResponse).
Arguments EvFetch {O} u request.
Arguments EvGet {O} key.
Arguments EvSet {O} key value options.
Arguments EvParse {O} response.

Definition is_get {O} (e : Event O) : bool :=
  match e with EvGet _ => true | _ => false end.
Definition is_set {O} (e : Event O) : bool :=
  match e with EvSet _ _ _ => true | _ => false end.
Definition is_fetch {O} (e : Event O) : bool :=
  match e with EvFetch _ _ => true | _ => false end.
Definition is_parse {O} (e : Event O) : bool :=
  match e with EvParse _ => true | _ => false end.

Record World (S N O : Type) := {
  env : N;
  store : S;
  trace : list (Event O)
}.
Arguments env {S N O} _.
Arguments store {S N O} _.
Arguments trace {S N O} _.

(** An [async] computation: from a world to a result and the world after. *)
Definition M (S N O A : Type) := World S N O -> Res A * World S N O.

Definition ret {S N O A} (a : A) : M S N O A := fun w => (Ok a, w).

Definition bind {S N O A B} (c : M S N O A) (k : A -> M S N O B) : M S N O B :=
  fun w =>
    match c w with
    | (Ok a, w') => k a w'
    | (Rejected e, w') => (Rejected e, w')
    end.

(** [await] of something that resolved or rejected already. *)
Definition lift {S N O A} (r : Res A) : M S N O A := fun w => (r, w).

Notation "'do' x <- c ;; k" := (bind c (fun x => k))
  (at level 10, x name, c at level 99, k at level 200).
Notation "'do' ' pat <- c ;; k" := (bind c (fun x => match x with pat => k end))
  (at level 10, pat pattern, c at level 99, k at level 200).

(** [ResponseWithCacheWritePromise]. A cache write that was started shows
    as the outcome its promise settles with. *)
Record ResponseWithCacheWritePromise := {
  response : FetcherResponse;
  parsedBody : Body;
  responseFromCache : option bool;
  cacheWritePromise : option (Res unit)
}.

(** The [cache] argument of [fetch]. *)
Record CacheArg (Cfg : Type) := {
  cacheKey : option string;
  cacheOptions : option CacheOptionsOrFactory;
  httpCacheSemanticsCachePolicyOptions : option Cfg
}.
Arguments cacheKey {Cfg} _.
Arguments cacheOptions {Cfg} _.
Arguments httpCacheSemanticsCachePolicyOptions {Cfg} _.

(** [requestOpts.method = requestOpts.method ?? 'GET'] *)
Definition with_default_method (requestOpts : RequestOptions) : RequestOptions :=
  {| method := Some (default "GET" (method requestOpts));
     headers := headers requestOpts;
     skipCache := skipCache requestOpts;
     init := init requestOpts |}.

(* ------------------------------------------------------------------ *)
(** ** [HTTPCache] (src/HTTPCache.ts) *)

Section HTTPCache.

Context {R O Cfg S N : Type}.
Context (evaluator : CachePolicyEvaluator R O Cfg).
Context (wrapped : KeyValueCache S O).
Context (environment : Environment N).
(** The third argument of the constructor; [parseResponseBody] by default. *)
Variable parseBody : FetcherResponse -> Res Body.

(** [this.keyValueCache], as the constructor sets it. *)
Definition keyValueCache : KeyValueCache S O :=
  PrefixingKeyValueCache wrapped "httpcache:".

Definition now : M S N O Z := fun w => (Ok (dateNow (env w)), w).

(** [await this.httpFetch(url, request)] *)
Definition call_httpFetch (u : string) (request : RequestOptions)
  : M S N O FetcherResponse :=
  fun w =>
    let '(r, n') := httpFetch u request (env w) in
    (r, {| env := n'; store := store w;
           trace := trace w ++ [EvFetch u request] |}).

(** [await this.keyValueCache.get(key)] *)
Definition call_get (key : string) : M S N O (option (CacheItem O)) :=
  fun w =>
    let '(r, s') := @kv_get S O keyValueCache (dateNow (env w)) key (store w) in
    (r, {| env := env w; store := s'; trace := trace w ++ [EvGet key] |}).

(** [this.keyValueCache.set(key, value, options)]; how the call ends is the
    value, since the caller holds the promise and does not await it. *)
Definition call_set (key : string) (value : CacheItem O)
  (options : option CacheOptions) : M S N O (Res unit) :=
  fun w =>
    let '(r, s') :=
      @kv_set S O keyValueCache (dateNow (env w)) key value options (store w) in
    (Ok r, {| env := env w; store := s';
              trace := trace w ++ [EvSet key value options] |}).

(** [await this.parseBody(response)] *)
Definition call_parseBody (resp : FetcherResponse) : M S N O Body :=
  fun w =>
    (parseBody resp,
     {| env := env w; store := store w; trace := trace w ++ [EvParse resp] |}).

(** [{ ...cacheOptions, ttl }] *)
Definition with_ttl (co : option CacheOptions) (t : number) : CacheOptions :=
  {| ttl := Some t; others := default [] (others <$> co) |}.

Definition writeToCache (parsedBody : Body) (policy : SneakyCachePolicy R)
  (cacheOptions : option CacheOptions) (ttl : number)
  (ttlOverride : option number)
  (cacheKey : string) : M S N O (Res unit) :=
  let entry :=
    {| policy := toObject policy; ttlOverride := ttlOverride; body := parsedBody |} in
  call_set cacheKey entry (Some (with_ttl cacheOptions ttl)).

(** [Math.round(ms / 1000)]: halves go up. *)
Definition round_seconds (ms : Z) : Z := (ms + 500) / 1000.

(** [if (typeof cacheOptions === 'function') cacheOptions = await
    cacheOptions(url, response, request)] *)
Definition resolveCacheOptions (cacheOptions : option CacheOptionsOrFactory)
  (u : string) (response : FetcherResponse) (request : RequestOptions)
  : Res (option CacheOptions) :=
  match cacheOptions with
  | Some (Computed f) => f u response request
  | Some (Static co) => Ok (Some co)
  | None => Ok None
  end.

(** The TTL before the extension for validators: the override, or the
    evaluator's time to live rounded to seconds. *)
Definition computed_ttl (t : Z) (policy : SneakyCachePolicy R)
  (co : option CacheOptions) : number :=
  match co ≫= ttl with
  | None => Int (round_seconds (timeToLive t policy))
  | Some o => o
  end.

Definition storeResponseAndReturnClone (u : string) (response : FetcherResponse)
  (parsedBody : Body) (request : RequestOptions) (policy : SneakyCachePolicy R)
  (cacheKey : string) (cacheOptions : option CacheOptionsOrFactory)
  : M S N O ResponseWithCacheWritePromise :=
  do cacheOptions <- lift (resolveCacheOptions cacheOptions u response request) ;;
  let ttlOverride := cacheOptions ≫= ttl in
  if (negb (truthy_number ttlOverride
            && (200 <=? _status policy) && (_status policy <=? 299))
      && negb (bool_decide (method request = Some "GET") && storable policy))%bool
  then
    ret {| response := response; parsedBody := parsedBody;
           responseFromCache := None; cacheWritePromise := None |}
  else
    do t <- now ;;
    let ttl := computed_ttl t policy cacheOptions in
    if number_leb_zero ttl then
      ret {| response := response; parsedBody := parsedBody;
             responseFromCache := None; cacheWritePromise := None |}
    else
      let ttl := if canBeRevalidated response then number_double ttl else ttl in
      do promise <- writeToCache parsedBody policy cacheOptions ttl ttlOverride cacheKey ;;
      ret {| response := response; parsedBody := parsedBody;
             responseFromCache := None; cacheWritePromise := Some promise |}.

(** The branch of [fetch] taken when the store has nothing for the key. *)
Definition fetch_miss (urlString : string) (requestOpts : RequestOptions)
  (cacheKey : string) (cache : option (CacheArg Cfg))
  : M S N O ResponseWithCacheWritePromise :=
  do response <- call_httpFetch urlString requestOpts ;;
  do t <- now ;;
  do policy <- lift (newCachePolicy t
                    (policyRequestFrom urlString requestOpts)
                    (policyResponseFrom response)
                    (cache ≫= httpCacheSemanticsCachePolicyOptions)) ;;
  do parsedBody <- call_parseBody response ;;
  storeResponseAndReturnClone urlString response parsedBody requestOpts policy
    cacheKey (cache ≫= cacheOptions).

(** The request the revalidation branch sends: the caller's options with
    the evaluator's revalidation headers in place of the caller's. *)
Definition revalidation_request (u : string) (requestOpts : RequestOptions)
  (pol : SneakyCachePolicy R) : RequestOptions :=
  {| method := method requestOpts;
     headers :=
       Some (cachePolicyHeadersToFetcherHeadersInit
               (revalidationHeaders pol (policyRequestFrom u requestOpts)));
     skipCache := skipCache requestOpts;
     init := init requestOpts |}.

(** The [else] branch of the freshness test: revalidate with the origin. *)
Definition fetch_revalidate (urlString : string) (requestOpts : RequestOptions)
  (cacheKey : string) (cache : option (CacheArg Cfg))
  (policy : SneakyCachePolicy R) (body : Body)
  : M S N O ResponseWithCacheWritePromise :=
  let revalidationRequest := revalidation_request urlString requestOpts policy in
  do revalidationResponse <- call_httpFetch urlString revalidationRequest ;;
  do t <- now ;;
  do ' (revalidatedPolicy, modified) <-
    lift (revalidatedPolicy t policy
            (policyRequestFrom urlString revalidationRequest)
            (policyResponseFrom revalidationResponse)) ;;
  do parsedBody <-
    (if (modified : bool) then call_parseBody revalidationResponse else ret body) ;;
  do t' <- now ;;
  storeResponseAndReturnClone urlString
    (newNodeFetchResponse (_url revalidatedPolicy) (_status revalidatedPolicy)
       (cachePolicyHeadersToNodeFetchHeadersInit
          (responseHeaders t' revalidatedPolicy)))
    parsedBody requestOpts revalidatedPolicy cacheKey (cache ≫= cacheOptions).

(** The freshness test of a stored entry. *)
Definition fresh (t : Z) (policy : SneakyCachePolicy R)
  (ttlOverride : option number) (request : PolicyRequest) : bool :=
  (truthy_number ttlOverride
   && match ttlOverride with
      | Some o => ltb_number (age t policy) o
      | None => false
      end)
  || (negb (truthy_number ttlOverride)
      && satisfiesWithoutRevalidation t policy request).

(** The branch of [fetch] taken when the store has an entry for the key. *)
Definition fetch_hit (urlString : string) (requestOpts : RequestOptions)
  (cacheKey : string) (cache : option (CacheArg Cfg)) (entry : CacheItem O)
  : M S N O ResponseWithCacheWritePromise :=
  let policyRaw := policy entry in
  let ttlOverride := ttlOverride entry in
  let body := body entry in
  do policy <- lift (fromObject policyRaw) ;;
  let urlFromPolicy := _url policy in
  let policy := clear_url policy in
  do t <- now ;;
  if fresh t policy ttlOverride (policyRequestFrom urlString requestOpts)
  then
    let headers := responseHeaders t policy in
    ret {| response :=
             newNodeFetchResponse urlFromPolicy (_status policy)
               (cachePolicyHeadersToNodeFetchHeadersInit headers);
           responseFromCache := Some true;
           parsedBody := body;
           cacheWritePromise := None |}
  else
    fetch_revalidate urlString requestOpts cacheKey cache policy body.

(** [fetch(url, requestOpts, cache)]. The URL is given as its string. *)
Definition fetch (urlString : string) (requestOpts : RequestOptions)
  (cache : option (CacheArg Cfg)) : M S N O ResponseWithCacheWritePromise :=
  let requestOpts := with_default_method requestOpts in
  let cacheKey := default urlString (cache ≫= cacheKey) in
  if bool_decide (method requestOpts = Some "HEAD") then
    do response <- call_httpFetch urlString requestOpts ;;
    ret {| response := response;
           responseFromCache := Some false;
           parsedBody := RawText "";
           cacheWritePromise := None |}
  else
    do entry <-
      (if negb (bool_decide (skipCache requestOpts = Some true))
       then call_get cacheKey
       else ret None) ;;
    match entry with
    | None => fetch_miss urlString requestOpts cacheKey cache
    | Some entry => fetch_hit urlString requestOpts cacheKey cache entry
    end.

(** The revalidation of a stale entry which the origin reports unmodified:
    the lookup hits, the entry is not fresh, the conditional fetch comes
    back and the evaluator finds the content unchanged. *)
Definition unmodified_revalidation (u : string) (requestOpts : RequestOptions)
  (cache : option (CacheArg Cfg)) (w : World S N O) (entry : CacheItem O)
  : Prop :=
  let request := with_default_method requestOpts in
  let key := default u (cache ≫= cacheKey) in
  method requestOpts <> Some "HEAD"
  /\ skipCache requestOpts <> Some true
  /\ exists s' pol resp n' pol',
       @kv_get S O keyValueCache (dateNow (env w)) key (store w) = (Ok (Some entry), s')
       /\ fromObject (policy entry) = Ok pol
       /\ fresh (dateNow (env w)) (clear_url pol) (ttlOverride entry)
            (policyRequestFrom u request) = false
       /\ httpFetch u (revalidation_request u request (clear_url pol)) (env w)
          = (Ok resp, n')
       /\ revalidatedPolicy (dateNow n') (clear_url pol)
            (policyRequestFrom u (revalidation_request u request (clear_url pol)))
            (policyResponseFrom resp) = Ok (pol', false).

End HTTPCache.

(* ------------------------------------------------------------------ *)
(** ** Vocabulary of the statements *)

(** The response declares no content: status 204, or a [Content-Length]
    that reads ['0']. *)
Definition declares_empty (r : FetcherResponse) : bool :=
  (status r =? 204)
  || bool_decide (headers_get (response_headers r) "Content-Length" = Some "0").

(** The parser as the specification words it: structured data iff the
    content type is exactly [application/json] or ends with [+json]. *)
Definition parse_as_specified (r : FetcherResponse) : Res Body :=
  if declares_empty r then text r
  else
    match headers_get (response_headers r) "Content-Type" with
    | Some ct =>
        if String.eqb ct "application/json" || endsWith ct "+json"
        then json r else text r
    | None => text r
    end.

(** The evaluator with another header-based freshness test. *)
Definition with_satisfies {R O Cfg} (ev : CachePolicyEvaluator R O Cfg)
  (sat : Z -> SneakyCachePolicy R -> PolicyRequest -> bool)
  : CachePolicyEvaluator R O Cfg := {|
  newCachePolicy := @newCachePolicy R O Cfg ev;
  fromObject := @fromObject R O Cfg ev;
  toObject := @toObject R O Cfg ev;
  age := @age R O Cfg ev;
  storable := @storable R O Cfg ev;
  timeToLive := @timeToLive R O Cfg ev;
  satisfiesWithoutRevalidation := sat;
  responseHeaders := @responseHeaders R O Cfg ev;
  revalidationHeaders := @revalidationHeaders R O Cfg ev;
  revalidatedPolicy := @revalidatedPolicy R O Cfg ev
|}.

Section TestingStore.

Context {R O Cfg N : Type}.
Context (evaluator : CachePolicyEvaluator R O Cfg).
Context (environment : Environment N).
Variable parseBody : FetcherResponse -> Res Body.

(** Whatever the store holds for the key has this body. *)
Definition stored_body_is (key : string) (b : Body)
  (s : FakeableTTLTestingCache O) : Prop :=
  forall value deadline,
    s !! ("httpcache:" +:+ key) = Some (value, deadline) -> body value = b.

(** A run of fetches under one cache key, each of them the revalidation
    of a stale entry that the origin reports unmodified. Between two
    fetches time passes and the transport moves on: the next fetch starts
    in any environment, with the store as the last one left it. *)
Inductive revalidations (key : string)
  : World (FakeableTTLTestingCache O) N O ->
    list ResponseWithCacheWritePromise -> Prop :=
| revalidations_nil w : revalidations key w []
| revalidations_cons w u requestOpts cache entry r w' n rs :
    default u (cache ≫= cacheKey) = key ->
    unmodified_revalidation evaluator FakeableKeyValueCache environment u requestOpts cache w entry ->
    fetch evaluator FakeableKeyValueCache environment parseBody u requestOpts cache w = (Ok r, w') ->
    revalidations key {| env := n; store := store w'; trace := trace w' |} rs ->
    revalidations key w (r :: rs).

End TestingStore.

(* ------------------------------------------------------------------ *)
(** ** Collaborators to run the model on *)

Module Fixture.

(** A small evaluator: freshness from [max-age], storability from
    [no-store], validators from [etag], a [304] reply means unmodified. It
    returns the request's headers with the validator added, as
    [http-cache-semantics] does. *)
Record State := {
  responseTime : Z;
  maxAge : Z;
  noStore : bool;
  resHeaders : CachePolicyHeaders
}.

Fixpoint digits (s : string) (acc : Z) : Z :=
  match s with
  | EmptyString => acc
  | String c s' => digits s' (acc * 10 + (Z.of_nat (nat_of_ascii c) - 48))
  end.

Definition cacheControl (hs : CachePolicyHeaders) : string :=
  match obj_get hs "cache-control" with
  | Some (One v) => v
  | _ => ""
  end.

Definition policyOf (t : Z) (rq : PolicyRequest) (rs : PolicyResponse)
  : SneakyCachePolicy State :=
  let cc := cacheControl (response_policy_headers rs) in
  {| _url := Some (request_url rq);
     _status := response_status rs;
     state := {| responseTime := t;
                 maxAge := if startsWith cc "max-age="
                           then digits (String.substring 8 (String.length cc - 8) cc) 0
                           else 0;
                 noStore := String.eqb cc "no-store";
                 resHeaders := response_policy_headers rs |} |}.

Definition ageOf (t : Z) (p : SneakyCachePolicy State) : Z :=
  (t - responseTime (state p)) / 1000.

#[export] Instance evaluator
  : CachePolicyEvaluator State (SneakyCachePolicy State) unit := {
  newCachePolicy t rq rs _ := Ok (policyOf t rq rs);
  fromObject o := Ok o;
  toObject p := p;
  age := ageOf;
  storable p := negb (noStore (state p));
  timeToLive t p := Z.max 0 (maxAge (state p) - ageOf t p) * 1000;
  satisfiesWithoutRevalidation t p _ := ageOf t p <? maxAge (state p);
  responseHeaders _ p := resHeaders (state p);
  revalidationHeaders p rq :=
    match obj_get (resHeaders (state p)) "etag" with
    | Some (One v) => obj_set (request_headers rq) "if-none-match" (One v)
    | _ => request_headers rq
    end;
  revalidatedPolicy t p rq rs :=
    if response_status rs =? 304
    then Ok ({| _url := Some (request_url rq);
                _status := _status p;
                state := {| responseTime := t;
                            maxAge := maxAge (state p);
                            noStore := noStore (state p);
                            resHeaders := resHeaders (state p) |} |}, false)
    else Ok (policyOf t rq rs, true)
}.

(** A scripted transport: each call takes the next reply; the clock is
    whatever the script says. *)
Record Net := {
  clock : Z;
  replies : list (Res FetcherResponse)
}.

#[export] Instance environment : Environment Net := {
  dateNow := clock;
  httpFetch _ _ n :=
    match replies n with
    | [] => (Rejected "network error", n)
    | r :: rest => (r, {| clock := clock n; replies := rest |})
    end
}.

Definition reply (st : Z) (hs : list (string * string)) (b : string)
  : FetcherResponse :=
  {| url := None;
     status := st;
     response_headers := newNodeFetchHeaders hs;
     json := Ok (Structured b);
     text := Ok (RawText b) |}.

Definition Store := FakeableTTLTestingCache (SneakyCachePolicy State).

Definition world (t : Z) (rs : list (Res FetcherResponse)) (s : Store)
  : World Store Net (SneakyCachePolicy State) :=
  {| env := {| clock := t; replies := rs |}; store := s; trace := [] |}.

Definition GET (hs : option (list (string * string))) : RequestOptions :=
  {| method := Some "GET"; headers := hs; skipCache := None; init := [] |}.

Definition withTtl (t : number) : option (CacheArg unit) :=
  Some {| cacheKey := None;
          cacheOptions := Some (Static {| ttl := Some t; others := [] |});
          httpCacheSemanticsCachePolicyOptions := None |}.

(** [HTTPCache] over the testing store, with the default body parser. *)
Definition run_fetch :=
  fetch evaluator (@FakeableKeyValueCache (SneakyCachePolicy State))
    environment parseResponseBody.

End Fixture.

(* ------------------------------------------------------------------ *)
(** ** Scenarios *)

Module Scenario.
Import Fixture.

Definition u : string := "/x".

(** [200], [max-age=60], an entity tag, body [[1]]. *)
Definition fresh_reply : FetcherResponse :=
  reply 200
    [("content-type", "application/json"); ("cache-control", "max-age=60");
     ("etag", "v1")]
    "[1]".

(** The same resource with another body. *)
Definition changed_reply : FetcherResponse :=
  reply 200
    [("content-type", "application/json"); ("cache-control", "max-age=60");
     ("etag", "v2")]
    "[2]".

(** The resource with a modification date in place of the entity tag, and
    with neither. *)
Definition dated_reply : FetcherResponse :=
  reply 200
    [("content-type", "application/json"); ("cache-control", "max-age=60");
     ("last-modified", "Mon, 02 Nov 2026 00:00:00 GMT")]
    "[1]".

Definition plain_reply : FetcherResponse :=
  reply 200
    [("content-type", "application/json"); ("cache-control", "max-age=60")]
    "[1]".

Definition not_modified : FetcherResponse := reply 304 [("etag", "v1")] "".

(** [404] without cache headers. *)
Definition gone : FetcherResponse := reply 404 [] "gone".

(** A JSON reply that names its character set. *)
Definition json_with_charset : FetcherResponse :=
  reply 200 [("content-type", "application/json; charset=utf-8")] "[1]".

Definition HEAD : RequestOptions :=
  {| method := Some "HEAD"; headers := None; skipCache := None; init := [] |}.

Definition GET_skipCache : RequestOptions :=
  {| method := Some "GET"; headers := None; skipCache := Some true; init := [] |}.

(** A caller who sends a token and an empty header. *)
Definition caller_headers : list (string * string) :=
  [("authorization", "t"); ("x-trace", "")].

(** The world after a first GET at time 1000 was answered by
    [fresh_reply]: one entry in the store, kept until 121000. *)
Definition after_miss : World Store Net (SneakyCachePolicy State) :=
  snd (run_fetch u (GET None) None (world 1000 [Ok fresh_reply] ∅)).

(** The policy of a reply to a GET of [u] received at time 1000. *)
Definition policy_of_reply (resp : FetcherResponse) : SneakyCachePolicy State :=
  policyOf 1000 (policyRequestFrom u (GET None)) (policyResponseFrom resp).

(** The policy and the entry that first GET left in the store. *)
Definition stored_policy : SneakyCachePolicy State :=
  policyOf 1000 (policyRequestFrom u (GET None)) (policyResponseFrom fresh_reply).

Definition stored_entry : CacheItem (SneakyCachePolicy State) :=
  {| policy := stored_policy; ttlOverride := None; body := Structured "[1]" |}.

(** 99 seconds later the entry is stale and still in the store; the origin
    will answer [304]. *)
Definition stale_world : World Store Net (SneakyCachePolicy State) :=
  world 100000 [Ok not_modified] (store after_miss).

(** The policy after a [304] received at time [t], and what a
    revalidation that reuses the stored body returns. *)
Definition revalidated_policy (t : Z) : SneakyCachePolicy State :=
  {| _url := Some u;
     _status := 200;
     state := {| responseTime := t; maxAge := 60; noStore := false;
                 resHeaders := resHeaders (state stored_policy) |} |}.

Definition served_again : ResponseWithCacheWritePromise :=
  {| response :=
       newNodeFetchResponse (Some u) 200
         (cachePolicyHeadersToNodeFetchHeadersInit (resHeaders (state stored_policy)));
     parsedBody := Structured "[1]";
     responseFromCache := None;
     cacheWritePromise := Some (Ok ()) |}.

(** The world after the revalidation in [stale_world], and the
    environment 100 seconds after that, when the origin answers [304]
    again. *)
Definition after_revalidation : World Store Net (SneakyCachePolicy State) :=
  snd (run_fetch u (GET None) None stale_world).

Definition later : Net := {| clock := 200000; replies := [Ok not_modified] |}.

Definition stale_again : World Store Net (SneakyCachePolicy State) :=
  {| env := later; store := store after_revalidation;
     trace := trace after_revalidation |}.

(** The policy of [gone] for a GET of [u] at time 1000. *)
Definition gone_policy : SneakyCachePolicy State :=
  policyOf 1000 (policyRequestFrom u (GET None)) (policyResponseFrom gone).

(** The entry a first GET at time 1000 leaves in the store when it is
    made with [seconds] as TTL override and answered by [fresh_reply], and
    the world 5 seconds after that GET; the origin will answer [304]. *)
Definition override_entry (seconds : number)
  : CacheItem (SneakyCachePolicy State) :=
  {| policy := stored_policy; ttlOverride := Some seconds;
     body := Structured "[1]" |}.

Definition after_override_write (seconds : number)
  : World Store Net (SneakyCachePolicy State) :=
  snd (run_fetch u (GET None) (withTtl seconds) (world 1000 [Ok fresh_reply] ∅)).

Definition override_world (seconds : number)
  : World Store Net (SneakyCachePolicy State) :=
  world 6000 [Ok not_modified] (store (after_override_write seconds)).

End Scenario.

(* ------------------------------------------------------------------ *)
(** ** Vocabulary of the further statements *)

(** The test [entry.deadline && entry.deadline <= Date.now()] of the
    testing store. *)
Definition expired (t : Z) (deadline : option Z) : bool :=
  truthy_num deadline
  && match deadline with Some d => d <=? t | None => false end.

(** A slot of the testing store as a read at time [t] leaves it. *)
Definition unexpired {O} (t : Z) (slot : option (CacheItem O * option Z))
  : option (CacheItem O * option Z) :=
  match slot with
  | Some (value, deadline) =>
      if expired t deadline then None else Some (value, deadline)
  | None => None
  end.

(** [values.length === 1 ? values[0] : values] *)
Definition desingleton (values : list string) : HeaderValue :=
  match values with
  | [v] => One v
  | _ => Many values
  end.

(** The values a header stands for: the strings of an array, the string
    itself unless it is empty, nothing for [undefined]. *)
Definition header_values (value : HeaderValue) : list string :=
  match value with
  | One v => if truthy_str (Some v) then [v] else []
  | Many vs => vs
  | Undefined => []
  end.

(** A header as a stored policy has it after a round through
    [node-fetch]: a lower-case name with one non-empty string, or with an
    array of two values or more. *)
Definition settled_header (entry : string * HeaderValue) : Prop :=
  toLowerCase (fst entry) = fst entry
  /\ match snd entry with
     | One v => v <> ""
     | Many vs => (2 <= length vs)%nat
     | Undefined => False
     end.

(** At most one element, and that one as described. *)
Inductive at_most_one {A} (P : A -> Prop) : list A -> Prop :=
| no_element : at_most_one P []
| one_element x : P x -> at_most_one P [x].

(** The calls one [fetch] of [u] under the cache key [key] can make, in
    their order: a [get], a live fetch, a parse, a [set]. *)
Definition fetch_calls {O} (u key : string) (evs : list (Event O)) : Prop :=
  exists gets fetches parses sets,
    evs = gets ++ fetches ++ parses ++ sets
    /\ at_most_one (fun e => e = EvGet key) gets
    /\ at_most_one (fun e => exists request, e = EvFetch u request) fetches
    /\ at_most_one (fun e => exists resp, e = EvParse resp) parses
    /\ at_most_one (fun e => exists value options, e = EvSet key value options) sets
    /\ (fetches = [] -> parses = [] /\ sets = []).

(** The calls that follow a live fetch of [u]: a parse and a [set], each
    at most once. *)
Definition after_live_fetch {O} (u key : string) (evs : list (Event O)) : Prop :=
  exists request parses sets,
    evs = [EvFetch u request] ++ parses ++ sets
    /\ at_most_one (fun e => exists resp, e = EvParse resp) parses
    /\ at_most_one (fun e => exists value options, e = EvSet key value options) sets.

(** Stores that fail, to run the error paths on. *)
Module Faults.

(** A store whose [get] rejects. *)
Definition ReadFailing {S O} (wrapped : KeyValueCache S O) (reason : string)
  : KeyValueCache S O := {|
  kv_get _ _ s := (Rejected reason, s);
  kv_set := @kv_set S O wrapped;
  kv_delete := @kv_delete S O wrapped
|}.

(** A store whose [set] rejects. *)
Definition WriteFailing {S O} (wrapped : KeyValueCache S O) (reason : string)
  : KeyValueCache S O := {|
  kv_get := @kv_get S O wrapped;
  kv_set _ _ _ _ s := (Rejected reason, s);
  kv_delete := @kv_delete S O wrapped
|}.

End Faults.

(* ------------------------------------------------------------------ *)
(** * The body parser *)

Lemma startsWith_empty p : p <> "" -> startsWith "" p = false.
Proof. destruct p; [congruence | reflexivity]. Qed.

Lemma endsWith_empty p : p <> "" -> endsWith "" p = false.
Proof. destruct p; [congruence | reflexivity]. Qed.

(** C9, as stated, fails: a content type that only starts with
    [application/json] is parsed as structured data, where the statement
    asks for raw text. *)
Lemma parse_json_with_charset_not_as_specified :
  let r := Scenario.json_with_charset in
  headers_get (response_headers r) "Content-Type"
  = Some "application/json; charset=utf-8"
  /\ parseResponseBody r = json r
  /\ parse_as_specified r = text r
  /\ parseResponseBody r <> parse_as_specified r.
Proof. vm_compute. repeat split; congruence. Qed.

(** C9, amended: a response that declares no content (status 204 or
    [Content-Length] ['0']) is read as text whatever its content type;
    any other response is parsed as structured data iff its content type
    starts with [application/json] or ends with [+json], and is read as
    raw text in all other cases. *)
Theorem parseResponseBody_decides (r : FetcherResponse) :
  parseResponseBody r =
    if declares_empty r then text r
    else
      match headers_get (response_headers r) "Content-Type" with
      | Some ct =>
          if startsWith ct "application/json" || endsWith ct "+json"
          then json r else text r
      | None => text r
      end.
Proof.
  unfold parseResponseBody, declares_empty.
  destruct (status r =? 204); simpl; [reflexivity |].
  destruct (bool_decide _); simpl; [reflexivity |].
  destruct (headers_get (response_headers r) "Content-Type") as [ct |];
    simpl; [| reflexivity].
  destruct (String.eqb_spec ct "") as [-> | _]; reflexivity.
Qed.

(* ------------------------------------------------------------------ *)
(** * Header bridging *)

Lemma obj_get_set_eq {V} (o : list (string * V)) k v :
  obj_get (obj_set o k v) k = Some v.
Proof.
  induction o as [| [k' v'] o IH]; simpl.
  - rewrite String.eqb_refl. reflexivity.
  - destruct (String.eqb k' k) eqn:E; simpl; rewrite E; [reflexivity | exact IH].
Qed.

Lemma obj_get_set_ne {V} (o : list (string * V)) k k' v :
  k <> k' -> obj_get (obj_set o k v) k' = obj_get o k'.
Proof.
  intros Hne. induction o as [| [k0 v0] o IH]; simpl.
  - destruct (String.eqb_spec k k'); [contradiction | reflexivity].
  - destruct (String.eqb_spec k0 k) as [-> | Hk]; simpl.
    + destruct (String.eqb_spec k k'); [contradiction | reflexivity].
    + destruct (String.eqb k0 k'); [reflexivity | exact IH].
Qed.

(** Entries under other names leave a name of the record as it is. *)
Lemma set_headers_other hs acc name :
  ~ In name (map fst hs) ->
  obj_get (fold_left set_header hs acc) name = obj_get acc name.
Proof.
  revert acc. induction hs as [| [n v] hs IH]; intros acc Hnot; simpl;
    [reflexivity |].
  simpl in Hnot. rewrite IH by tauto.
  assert (n <> name) by tauto.
  destruct v as [v | vs |]; simpl; try reflexivity.
  - destruct (negb (String.eqb v "")); [apply obj_get_set_ne; assumption | reflexivity].
  - apply obj_get_set_ne; assumption.
Qed.

(** A string value under a name that occurs once reaches the record as it
    is when it is not empty, and is dropped when it is. *)
Lemma set_headers_string hs name v :
  List.NoDup (map fst hs) ->
  In (name, One v) hs ->
  obj_get (cachePolicyHeadersToFetcherHeadersInit hs) name
  = if String.eqb v "" then None else Some v.
Proof.
  unfold cachePolicyHeadersToFetcherHeadersInit.
  assert (G : forall acc, obj_get acc name = None ->
            List.NoDup (map fst hs) -> In (name, One v) hs ->
            obj_get (fold_left set_header hs acc) name
            = if String.eqb v "" then None else Some v).
  { induction hs as [| [n x] hs IH]; intros acc Hacc Hnd Hin; simpl in *;
      [contradiction |].
    apply NoDup_cons_iff in Hnd as [Hfresh Hnd].
    destruct Hin as [[= -> ->] | Hin].
    - rewrite set_headers_other by assumption. simpl.
      destruct (String.eqb v ""); simpl; [exact Hacc | apply obj_get_set_eq].
    - apply IH; try assumption.
      assert (n <> name).
      { intros ->. apply Hfresh. apply (in_map fst) in Hin. exact Hin. }
      destruct x as [x | xs |]; simpl; try assumption.
      + destruct (negb (String.eqb x "")); [| assumption].
        rewrite obj_get_set_ne; assumption.
      + rewrite obj_get_set_ne; assumption. }
  apply G. reflexivity.
Qed.

(* ------------------------------------------------------------------ *)
(** * The cache orchestrator *)

(** [find] finds a name exactly when the map has that name up to case. *)
Lemma headers_find_iff l name :
  headers_find l name <> None
  <-> exists key values, In (key, values) l /\ toLowerCase key = toLowerCase name.
Proof.
  induction l as [| [k vs] l IH]; simpl.
  - split; [congruence | intros (? & ? & [] & _)].
  - destruct (String.eqb_spec (toLowerCase k) (toLowerCase name)) as [He | Hne].
    + split; [intros _; exists k, vs; auto | discriminate].
    + rewrite IH. split.
      * intros (key & values & Hin & Hk). exists key, values. auto.
      * intros (key & values & [[= <- <-] | Hin] & Hk); [contradiction |].
        exists key, values. auto.
Qed.

(** [headers.has(name)] holds exactly when the collection has a header
    whose name is [name] up to case. *)
Lemma headers_has_iff (h : Headers) name :
  headers_has h name = true
  <-> exists key values,
        In (key, values) (raw h) /\ toLowerCase key = toLowerCase name.
Proof.
  rewrite <- headers_find_iff. unfold headers_has.
  destruct (headers_find (raw h) name); split; congruence.
Qed.

Ltac step_world :=
  unfold writeToCache;
  unfold bind, ret, lift, now, call_httpFetch, call_get, call_set,
    call_parseBody; simpl.

Section Properties.

Context {R O Cfg S N : Type}.
Context (evaluator : CachePolicyEvaluator R O Cfg).
Context (wrapped : KeyValueCache S O).
Context (environment : Environment N).
Variable parseBody : FetcherResponse -> Res Body.

Abbreviation Fetch := (fetch evaluator wrapped environment parseBody).
Abbreviation FetchMiss := (fetch_miss evaluator wrapped environment parseBody).
Abbreviation FetchHit := (fetch_hit evaluator wrapped environment parseBody).
Abbreviation FetchRevalidate :=
  (fetch_revalidate evaluator wrapped environment parseBody).
Abbreviation StoreResponse :=
  (storeResponseAndReturnClone evaluator wrapped environment).
Abbreviation Cache := (keyValueCache wrapped).

Lemma with_default_method_id requestOpts m :
  method requestOpts = Some m -> with_default_method requestOpts = requestOpts.
Proof. destruct requestOpts; simpl; intros ->; reflexivity. Qed.

Lemma with_default_method_not_head requestOpts :
  method requestOpts <> Some "HEAD" ->
  method (with_default_method requestOpts) <> Some "HEAD".
Proof. destruct requestOpts as [[m |] ? ? ?]; simpl; congruence. Qed.

(** What the storage decision does to the world: nothing, or one [set]. *)
Lemma storeResponseAndReturnClone_effect u response parsedBody request policy
  key cacheOptions (w : World S N O) :
  let out :=
    StoreResponse u response parsedBody request policy key cacheOptions w in
  env (snd out) = env w
  /\ ((trace (snd out) = trace w /\ store (snd out) = store w
       /\ forall r, fst out = Ok r -> cacheWritePromise r = None)
      \/ exists value options,
           trace (snd out) = trace w ++ [EvSet key value options]).
Proof.
  unfold storeResponseAndReturnClone. step_world.
  destruct (resolveCacheOptions cacheOptions u response request) as [co | e];
    simpl; [| split; [reflexivity | left; repeat split; intros; discriminate]].
  destruct (negb _ && negb _)%bool; simpl;
    [split; [reflexivity | left; repeat split; intros r [= <-]; reflexivity] |].
  destruct (number_leb_zero _); simpl;
    [split; [reflexivity | left; repeat split; intros r [= <-]; reflexivity] |].
  match goal with
  | |- context [@kv_set _ _ ?i ?t ?k ?v ?o ?s] =>
      destruct (@kv_set _ _ i t k v o s) as [p s']; simpl
  end.
  split; [reflexivity | right; eauto].
Qed.

(** C7: for every fetch whose method is HEAD the store is neither read nor
    written (its state is unchanged and the only collaborator call is one
    live fetch), and a result, when there is one, has
    [responseFromCache = false]. *)
Theorem head_bypasses_store u requestOpts cache (w : World S N O) :
  method requestOpts = Some "HEAD" ->
  let out := Fetch u requestOpts cache w in
  store (snd out) = store w
  /\ trace (snd out) = trace w ++ [EvFetch u requestOpts]
  /\ forall r, fst out = Ok r -> responseFromCache r = Some false.
Proof.
  intros Hm. unfold fetch. cbv zeta.
  rewrite (with_default_method_id _ _ Hm), Hm. simpl. step_world.
  destruct (httpFetch u requestOpts (env w)) as [[resp | e] n']; simpl.
  - repeat split. intros r [= <-]. reflexivity.
  - repeat split. intros r [=].
Qed.

(** C10: for every fetch whose method is HEAD the result is the live
    response with the empty string as [parsedBody]; the body parser is not
    called. *)
Theorem head_body_is_empty u requestOpts cache (w : World S N O) :
  method requestOpts = Some "HEAD" ->
  let out := Fetch u requestOpts cache w in
  fst out =
    res_map (fun resp => {| response := resp; parsedBody := RawText "";
                            responseFromCache := Some false;
                            cacheWritePromise := None |})
      (fst (httpFetch u requestOpts (env w)))
  /\ (forall r, fst out = Ok r -> parsedBody r = RawText "")
  /\ filter (fun e => is_parse e = true) (trace (snd out))
     = filter (fun e => is_parse e = true) (trace w).
Proof.
  intros Hm. unfold fetch. cbv zeta.
  rewrite (with_default_method_id _ _ Hm), Hm. simpl. step_world.
  destruct (httpFetch u requestOpts (env w)) as [[resp | e] n']; simpl.
  - repeat split.
    + intros r [= <-]. reflexivity.
    + rewrite filter_app. simpl. apply app_nil_r.
  - repeat split.
    + intros r [=].
    + rewrite filter_app. simpl. apply app_nil_r.
Qed.

(** The live fetch, the policy and the parse of the miss branch leave no
    [get] in the trace. *)
Lemma fetch_miss_no_get u request key cache (w : World S N O) :
  exists evs,
    trace (snd (FetchMiss u request key cache w)) = trace w ++ evs
    /\ Forall (fun e => is_get e = false) evs.
Proof.
  unfold fetch_miss. step_world.
  destruct (httpFetch u request (env w)) as [[resp | e] n']; simpl;
    [| exists [EvFetch u request]; split; [reflexivity | repeat constructor]].
  destruct (newCachePolicy _ _ _ _) as [pol | e]; simpl;
    [| exists [EvFetch u request]; split; [reflexivity | repeat constructor]].
  destruct (parseBody resp) as [parsed | e]; simpl;
    [| exists [EvFetch u request; EvParse resp]; split;
       [rewrite <- app_assoc; reflexivity | repeat constructor]].
  match goal with
  | |- context [StoreResponse ?a ?b ?c ?d ?e ?f ?g ?w0] =>
      destruct (storeResponseAndReturnClone_effect a b c d e f g w0)
        as [_ [(Ht & _ & _) | (value & options & Ht)]]
  end; simpl in Ht; rewrite Ht.
  - exists [EvFetch u request; EvParse resp]. split;
      [rewrite <- app_assoc; reflexivity | repeat constructor].
  - exists [EvFetch u request; EvParse resp; EvSet key value options]. split;
      [rewrite <- !app_assoc; reflexivity | repeat constructor].
Qed.

(** C8: for every non-HEAD fetch with [skipCache] set, the store's [get]
    is not invoked, and once the live response has arrived, its policy is
    built and its body is parsed, the result is that of the storage
    decision run on them, which may start a [set]. *)
Theorem skipCache_bypasses_read_only u requestOpts cache (w : World S N O) :
  method requestOpts <> Some "HEAD" ->
  skipCache requestOpts = Some true ->
  let request := with_default_method requestOpts in
  let key := default u (cache ≫= cacheKey) in
  let out := Fetch u requestOpts cache w in
  (exists evs,
     trace (snd out) = trace w ++ evs /\ Forall (fun e => is_get e = false) evs)
  /\ forall resp n' policy parsed,
       httpFetch u request (env w) = (Ok resp, n') ->
       newCachePolicy (dateNow n') (policyRequestFrom u request)
         (policyResponseFrom resp)
         (cache ≫= httpCacheSemanticsCachePolicyOptions) = Ok policy ->
       parseBody resp = Ok parsed ->
       out = StoreResponse u resp parsed request policy key (cache ≫= cacheOptions)
               {| env := n'; store := store w;
                  trace := trace w ++ [EvFetch u request; EvParse resp] |}.
Proof.
  intros Hm Hs request key out.
  assert (Hout : out = FetchMiss u request key cache w).
  { subst out. unfold fetch. cbv zeta.
    fold request. fold key.
    rewrite (bool_decide_eq_false_2 _ (with_default_method_not_head _ Hm)).
    replace (skipCache request) with (Some true) by (symmetry; exact Hs).
    rewrite bool_decide_eq_true_2 by reflexivity. reflexivity. }
  split.
  - rewrite Hout. apply fetch_miss_no_get.
  - intros resp n' pol parsed Hf Hp Hb. rewrite Hout.
    unfold fetch_miss. step_world. rewrite Hf. simpl. rewrite Hp. simpl.
    rewrite Hb. rewrite <- app_assoc. reflexivity.
Qed.

(** X17: once the cache options are resolved, and when it returns, the
    storage decision starts a write exactly in these cases. With a [ttl]
    option that is a number other than [NaN]: the number is positive, and
    the policy's status is in [200,299] or the request is a GET that the
    evaluator finds storable. With a [ttl] option of [NaN]: the request is
    a GET that the evaluator finds storable. Without a [ttl] option: the
    request is a GET that the evaluator finds storable and the evaluator's
    time to live is 500 milliseconds or more, which is what rounds to a
    second or more. *)
Lemma cache_write_iff u response parsedBody request policy key cacheOptions co
  (w w' : World S N O) r :
  resolveCacheOptions cacheOptions u response request = Ok co ->
  StoreResponse u response parsedBody request policy key cacheOptions w = (Ok r, w') ->
  cacheWritePromise r <> None
  <-> match co ≫= ttl with
      | Some (Int o) =>
          0 < o
          /\ (200 <= _status policy <= 299
              \/ (method request = Some "GET" /\ storable policy = true))
      | Some NaN => method request = Some "GET" /\ storable policy = true
      | None =>
          method request = Some "GET" /\ storable policy = true
          /\ 500 <= timeToLive (dateNow (env w)) policy
      end.
Proof.
  intros Hco. unfold storeResponseAndReturnClone, computed_ttl. step_world.
  rewrite Hco. simpl.
  assert (Hround : forall ms, (round_seconds ms <=? 0) = false <-> 500 <= ms).
  { intros ms. unfold round_seconds. rewrite Z.leb_gt.
    pose proof (Z.div_mod (ms + 500) 1000 ltac:(lia)) as Hdm.
    pose proof (Z.mod_pos_bound (ms + 500) 1000 ltac:(lia)) as Hb.
    split; intros; nia. }
  destruct (co ≫= ttl) as [[o |] |] eqn:Ht; simpl;
    destruct (200 <=? _status policy) eqn:H1; simpl;
    destruct (_status policy <=? 299) eqn:H2; simpl;
    destruct (bool_decide (method request = Some "GET")) eqn:Hg; simpl;
    destruct (storable policy) eqn:Hst; simpl;
    try destruct (Z.eqb_spec o 0) as [-> | Hnz]; simpl;
    try apply bool_decide_eq_true_1 in Hg;
    try apply bool_decide_eq_false_1 in Hg;
    try (intros [= <- <-]; simpl; split; [congruence |]; intros;
         exfalso; intuition (congruence || lia));
    try (destruct (o <=? 0) eqn:Hz; simpl;
         [ intros [= <- <-]; simpl; split; [congruence |]; intros;
           exfalso; intuition (congruence || lia) |]);
    try (destruct (round_seconds _ <=? 0) eqn:Hz; simpl;
         [ intros [= <- <-]; simpl; split; [congruence |]; intros [_ [_ Hge]];
           apply Hround in Hge; congruence |]);
    match goal with
    | |- context [@kv_set _ _ ?i ?t ?k ?v ?o ?s] =>
        destruct (@kv_set _ _ i t k v o s) as [p s']; simpl
    end;
    intros [= <- <-]; simpl; (split; [intros _ | congruence]);
    try apply Hround in Hz;
    intuition (congruence || lia).
Qed.

(** The [set] a write consists of: the TTL handed to the store is the
    computed one, doubled if the response can be revalidated. *)
Lemma storeResponseAndReturnClone_set u response parsedBody request policy
  key cacheOptions co (w w' : World S N O) r :
  resolveCacheOptions cacheOptions u response request = Ok co ->
  StoreResponse u response parsedBody request policy key cacheOptions w = (Ok r, w') ->
  cacheWritePromise r <> None ->
  let computed := computed_ttl evaluator (dateNow (env w)) policy co in
  let options :=
    Some {| ttl := Some (if canBeRevalidated response
                         then number_double computed else computed);
            others := default [] (others <$> co) |} in
  let value :=
    {| policy := toObject policy; ttlOverride := co ≫= ttl; body := parsedBody |} in
  number_leb_zero computed = false
  /\ trace w' = trace w ++ [EvSet key value options]
  /\ store w' = snd (@kv_set S O Cache (dateNow (env w)) key value options (store w)).
Proof.
  intros Hco. unfold storeResponseAndReturnClone, computed_ttl. step_world.
  rewrite Hco. simpl.
  destruct (negb _ && negb _)%bool; simpl;
    [intros [= <- <-]; simpl; congruence |].
  destruct (number_leb_zero _) eqn:Hz; simpl;
    [intros [= <- <-]; simpl; congruence |].
  match goal with
  | |- context [@kv_set _ _ ?i ?t ?k ?v ?o ?s] =>
      destruct (@kv_set _ _ i t k v o s) as [p s'] eqn:Hset; simpl
  end.
  intros [= <- <-] _. split; [reflexivity |]. split; [reflexivity |].
  simpl. unfold with_ttl in Hset. simpl. rewrite Hset. reflexivity.
Qed.

(** [Math.round(ms / 1000)] is the integer [c] with
    [c - 1/2 <= ms / 1000 < c + 1/2]. *)
Lemma round_seconds_spec ms :
  1000 * round_seconds ms - 500 <= ms < 1000 * round_seconds ms + 500.
Proof.
  unfold round_seconds.
  pose proof (Z.div_mod (ms + 500) 1000 ltac:(lia)) as Hdm.
  pose proof (Z.mod_pos_bound (ms + 500) 1000 ltac:(lia)) as Hb.
  lia.
Qed.

(** C6: whenever the storage decision starts a write, the one call it
    makes is a [set] under the cache key, and the [ttl] option of that
    [set] is fixed by the computed TTL, which is the [ttl] option of the
    call if it has one and else the integer nearest to the evaluator's time
    to live divided by 1000 (halves go up): the [ttl] passed is twice the
    computed TTL if the response has a header named [ETag] or one named
    [Last-Modified], in any case of the letters, and the computed TTL
    itself if it has neither. *)
Theorem write_ttl_doubled_iff_revalidatable u response parsedBody request policy
  key cacheOptions co (w w' : World S N O) r :
  resolveCacheOptions cacheOptions u response request = Ok co ->
  StoreResponse u response parsedBody request policy key cacheOptions w = (Ok r, w') ->
  cacheWritePromise r <> None ->
  let carries name :=
    exists key values,
      In (key, values) (raw (response_headers response))
      /\ toLowerCase key = name in
  exists computed passed value,
    match co ≫= ttl with
    | Some o => computed = o
    | None =>
        exists c, computed = Int c
          /\ 1000 * c - 500 <= timeToLive (dateNow (env w)) policy < 1000 * c + 500
    end
    /\ (carries "etag" \/ carries "last-modified" ->
        passed = match computed with Int c => Int (2 * c) | NaN => NaN end)
    /\ (~ carries "etag" -> ~ carries "last-modified" -> passed = computed)
    /\ let options :=
         Some {| ttl := Some passed; others := default [] (others <$> co) |} in
       trace w' = trace w ++ [EvSet key value options]
       /\ store w'
          = snd (@kv_set S O Cache (dateNow (env w)) key value options (store w)).
Proof.
  intros Hco Hrun Hw carries.
  destruct (storeResponseAndReturnClone_set _ _ _ _ _ _ _ _ _ _ _ Hco Hrun Hw)
    as (_ & Htrace & Hstore).
  assert (Hetag : headers_has (response_headers response) "ETag" = true
                  <-> carries "etag") by apply headers_has_iff.
  assert (Hlm : headers_has (response_headers response) "Last-Modified" = true
                <-> carries "last-modified") by apply headers_has_iff.
  eexists (computed_ttl evaluator (dateNow (env w)) policy co), _, _.
  split; [| split; [| split; [| split; [exact Htrace | exact Hstore]]]].
  - unfold computed_ttl. destruct (co ≫= ttl) as [o |]; [reflexivity |].
    eexists. split; [reflexivity | apply round_seconds_spec].
  - unfold canBeRevalidated. intros [He | Hl].
    + apply Hetag in He. rewrite He. simpl.
      destruct (computed_ttl _ _ _ _) as [c |]; simpl;
        [f_equal; lia | reflexivity].
    + apply Hlm in Hl. rewrite Hl, orb_true_r.
      destruct (computed_ttl _ _ _ _) as [c |]; simpl;
        [f_equal; lia | reflexivity].
  - unfold canBeRevalidated. intros He Hl.
    destruct (headers_has (response_headers response) "ETag");
      [exfalso; apply He, Hetag; reflexivity |].
    destruct (headers_has (response_headers response) "Last-Modified");
      [exfalso; apply Hl, Hlm; reflexivity |].
    reflexivity.
Qed.

(** The storage decision hands back the body it was given and never sets
    [responseFromCache]. *)
Lemma storeResponseAndReturnClone_result u resp parsed request pol key
  cacheOptions (w w' : World S N O) r :
  StoreResponse u resp parsed request pol key cacheOptions w = (Ok r, w') ->
  responseFromCache r = None /\ parsedBody r = parsed /\ response r = resp.
Proof.
  unfold storeResponseAndReturnClone. step_world.
  destruct (resolveCacheOptions cacheOptions u resp request) as [co | e];
    simpl; [| discriminate].
  destruct (negb _ && negb _)%bool; simpl;
    [intros [= <- <-]; repeat split |].
  destruct (number_leb_zero _); simpl; [intros [= <- <-]; repeat split |].
  match goal with
  | |- context [@kv_set _ _ ?i ?t ?k ?v ?o ?s] =>
      destruct (@kv_set _ _ i t k v o s) as [p s']; simpl
  end.
  intros [= <- <-]; repeat split.
Qed.

(** The storage decision only appends to the trace. *)
Lemma storeResponseAndReturnClone_trace u resp parsed request pol key
  cacheOptions (w : World S N O) :
  exists evs,
    trace (snd (StoreResponse u resp parsed request pol key cacheOptions w))
    = trace w ++ evs.
Proof.
  destruct (storeResponseAndReturnClone_effect u resp parsed request pol key
              cacheOptions w) as [_ [(Ht & _) | (value & options & Ht)]].
  - exists []. rewrite app_nil_r. exact Ht.
  - eauto.
Qed.

(** A result of the miss branch comes after a live fetch and has no
    [responseFromCache]. *)
Lemma fetch_miss_result u request key cache (w w' : World S N O) r :
  FetchMiss u request key cache w = (Ok r, w') ->
  responseFromCache r = None
  /\ exists evs, trace w' = trace w ++ EvFetch u request :: evs.
Proof.
  unfold fetch_miss. step_world.
  destruct (httpFetch u request (env w)) as [[resp | e] n']; simpl;
    [| discriminate].
  destruct (newCachePolicy _ _ _ _) as [pol | e]; simpl; [| discriminate].
  destruct (parseBody resp) as [parsed | e]; simpl; [| discriminate].
  intros H. split.
  - eapply storeResponseAndReturnClone_result; exact H.
  - match type of H with
    | StoreResponse ?a ?b ?c ?d ?e ?f ?g ?w0 = _ =>
        destruct (storeResponseAndReturnClone_trace a b c d e f g w0) as [evs Ht]
    end.
    rewrite H in Ht. simpl in Ht. rewrite Ht, <- !app_assoc. simpl. eauto.
Qed.

(** The revalidation branch starts with a live fetch of that request. *)
Lemma fetch_revalidate_trace u request key cache pol stored (w : World S N O) :
  exists evs,
    trace (snd (FetchRevalidate u request key cache pol stored w))
    = trace w ++ EvFetch u (revalidation_request evaluator u request pol) :: evs.
Proof.
  unfold fetch_revalidate. cbv zeta. step_world.
  destruct (httpFetch u _ (env w)) as [[resp | e] n']; simpl; [| eauto].
  destruct (revalidatedPolicy _ _ _ _) as [[pol' modified] | e]; simpl;
    [| eauto].
  destruct modified; simpl.
  - destruct (parseBody resp) as [parsed | e]; simpl;
      [| eexists; rewrite <- app_assoc; reflexivity].
    match goal with
    | |- context [StoreResponse ?a ?b ?c ?d ?e ?f ?g ?w0] =>
        destruct (storeResponseAndReturnClone_trace a b c d e f g w0) as [evs Ht]
    end.
    rewrite Ht. simpl. rewrite <- !app_assoc. simpl. eauto.
  - match goal with
    | |- context [StoreResponse ?a ?b ?c ?d ?e ?f ?g ?w0] =>
        destruct (storeResponseAndReturnClone_trace a b c d e f g w0) as [evs Ht]
    end.
    rewrite Ht. simpl. rewrite <- !app_assoc. simpl. eauto.
Qed.

(** A result of the revalidation branch has no [responseFromCache],
    whether the origin reported a change or not; without a change its body
    is the stored one. *)
Lemma fetch_revalidate_result u request key cache pol stored
  (w w' : World S N O) r :
  FetchRevalidate u request key cache pol stored w = (Ok r, w') ->
  responseFromCache r = None
  /\ forall resp n' pol',
       httpFetch u (revalidation_request evaluator u request pol) (env w) = (Ok resp, n') ->
       revalidatedPolicy (dateNow n') pol
         (policyRequestFrom u (revalidation_request evaluator u request pol))
         (policyResponseFrom resp) = Ok (pol', false) ->
       parsedBody r = stored.
Proof.
  unfold fetch_revalidate. cbv zeta. step_world.
  destruct (httpFetch u _ (env w)) as [[resp | e] n']; simpl; [| discriminate].
  destruct (revalidatedPolicy _ _ _ _) as [[pol' modified] | e] eqn:Hrev;
    simpl; [| discriminate].
  destruct modified; simpl.
  - destruct (parseBody resp) as [parsed | e]; simpl; [| discriminate].
    intros H. split; [eapply storeResponseAndReturnClone_result; exact H |].
    intros resp0 n0 pol0 [= <- <-] Hrev0. congruence.
  - intros H. split; [eapply storeResponseAndReturnClone_result; exact H |].
    intros _ _ _ _ _. eapply storeResponseAndReturnClone_result; exact H.
Qed.

(** A result of the hit branch: the fresh one, with the world as it was,
    or one that came after a live fetch. *)
Lemma fetch_hit_result u request key cache entry (w w' : World S N O) r :
  FetchHit u request key cache entry w = (Ok r, w') ->
  (responseFromCache r = Some true /\ w' = w)
  \/ (responseFromCache r = None
      /\ exists rr evs, trace w' = trace w ++ EvFetch u rr :: evs).
Proof.
  unfold fetch_hit. step_world.
  destruct (fromObject (policy entry)) as [pol | e]; simpl; [| discriminate].
  destruct (fresh _ _ _ _ _); simpl.
  - intros [= <- <-]. left. split; reflexivity.
  - intros H. right. split.
    + eapply fetch_revalidate_result; exact H.
    + destruct (fetch_revalidate_trace u request key cache (clear_url pol)
                  (body entry) w) as [evs Ht].
      rewrite H in Ht. simpl in Ht. eauto.
Qed.

(** C4, amended: for every non-HEAD fetch that returns, [responseFromCache]
    is [true] when the result was served without a live fetch (the fresh
    hit), and it is absent ([undefined]) whenever a live fetch was made, on
    the miss path and on the revalidation path alike. *)
Theorem responseFromCache_set_only_on_fresh_hit u requestOpts cache
  (w w' : World S N O) r :
  method requestOpts <> Some "HEAD" ->
  Fetch u requestOpts cache w = (Ok r, w') ->
  exists evs,
    trace w' = trace w ++ evs
    /\ responseFromCache r = if existsb is_fetch evs then None else Some true.
Proof.
  intros Hm. unfold fetch. cbv zeta.
  rewrite (bool_decide_eq_false_2 _ (with_default_method_not_head _ Hm)).
  set (request := with_default_method requestOpts).
  set (key := default u (cache ≫= cacheKey)).
  assert (Hmiss : forall w0 evs0,
            trace w0 = trace w ++ evs0 ->
            FetchMiss u request key cache w0 = (Ok r, w') ->
            exists evs, trace w' = trace w ++ evs
              /\ responseFromCache r = if existsb is_fetch evs then None else Some true).
  { intros w0 evs0 H0 H. apply fetch_miss_result in H as [Hflag [evs Ht]].
    exists (evs0 ++ EvFetch u request :: evs). split.
    - rewrite Ht, H0, <- app_assoc. reflexivity.
    - rewrite existsb_app. simpl. rewrite orb_true_r. exact Hflag. }
  destruct (negb (bool_decide (skipCache request = Some true))); step_world.
  - destruct (@kv_get S O wrapped _ _ _) as [[[entry |] | e] s']; simpl;
      [| | discriminate].
    + intros H. apply fetch_hit_result in H
        as [[Hflag ->] | [Hflag (rr & evs & Ht)]]; simpl.
      * exists [EvGet key]. split; [reflexivity | exact Hflag].
      * simpl in Ht. exists ([EvGet key] ++ EvFetch u rr :: evs). split.
        -- rewrite Ht, <- app_assoc. reflexivity.
        -- simpl. exact Hflag.
    + apply (Hmiss _ [EvGet key]). reflexivity.
  - apply (Hmiss w []). symmetry. apply app_nil_r.
Qed.

(** C5, amended: for every stale cache hit, the revalidation fetch is
    issued with the caller's request options in which the headers are
    replaced by the record form of the headers the evaluator returns for
    the caller's request (its URL, method and headers). A string value the
    evaluator returns reaches the transport as it is when it is not empty
    and is dropped when it is empty. *)
Theorem revalidation_request_carries_evaluator_headers u requestOpts key cache
  entry pol (w : World S N O) :
  fromObject (policy entry) = Ok pol ->
  fresh evaluator (dateNow (env w)) (clear_url pol) (ttlOverride entry)
    (policyRequestFrom u requestOpts) = false ->
  let asked := policyRequestFrom u requestOpts in
  let returned := revalidationHeaders (clear_url pol) asked in
  let sent := revalidation_request evaluator u requestOpts (clear_url pol) in
  (exists evs,
     trace (snd (FetchHit u requestOpts key cache entry w))
     = trace w ++ EvFetch u sent :: evs)
  /\ request_headers asked
     = map (fun h => (fst h, One (snd h))) (default [] (headers requestOpts))
  /\ method sent = method requestOpts
  /\ skipCache sent = skipCache requestOpts
  /\ init sent = init requestOpts
  /\ headers sent = Some (cachePolicyHeadersToFetcherHeadersInit returned)
  /\ (List.NoDup (map fst returned) ->
      forall name v, In (name, One v) returned ->
        obj_get (default [] (headers sent)) name
        = if String.eqb v "" then None else Some v).
Proof.
  intros Hp Hstale asked returned sent. repeat split.
  - unfold fetch_hit. step_world. rewrite Hp. simpl. rewrite Hstale.
    apply fetch_revalidate_trace.
  - intros Hnd name v Hin. simpl. apply set_headers_string; assumption.
Qed.

(** With a truthy override the freshness test is the comparison of the
    age with the override. *)
Lemma fresh_with_override sat t (pol : SneakyCachePolicy R) o rq :
  o <> 0 ->
  fresh (with_satisfies evaluator sat) t pol (Some (Int o)) rq = (age t pol <? o).
Proof.
  intros Ho. unfold fresh. simpl.
  destruct (Z.eqb_spec o 0); [contradiction |]. simpl.
  destruct (age t pol <? o); reflexivity.
Qed.

(** With a falsy override, as without one, it is the evaluator's test. *)
Lemma fresh_without_override sat t (pol : SneakyCachePolicy R) override rq :
  override = Some (Int 0) \/ override = Some NaN \/ override = None ->
  fresh (with_satisfies evaluator sat) t pol override rq = sat t pol rq.
Proof. intros [-> | [-> | ->]]; reflexivity. Qed.

(** The evaluator is the one that answers the header-based test as it
    does. *)
Lemma with_own_satisfies :
  with_satisfies evaluator satisfiesWithoutRevalidation = evaluator.
Proof. destruct evaluator. reflexivity. Qed.

(** C2, amended: for every cache hit whose stored entry carries a
    [ttlOverride] that is a number other than [0] and [NaN], the entry is
    served as fresh if and only if [policy.age()] is less than the
    override, and it is revalidated otherwise; what the evaluator's
    [satisfiesWithoutRevalidation] would answer has no influence on the
    fetch. An entry whose [ttlOverride] is [0] or [NaN] is treated as one
    without override: it is served as fresh if and only if
    [satisfiesWithoutRevalidation] holds, whatever its age, and
    revalidated otherwise. *)
Theorem ttlOverride_takes_precedence u requestOpts cache entry s'
  (w : World S N O) :
  method requestOpts <> Some "HEAD" ->
  skipCache requestOpts <> Some true ->
  let request := with_default_method requestOpts in
  let key := default u (cache ≫= cacheKey) in
  @kv_get S O Cache (dateNow (env w)) key (store w) = (Ok (Some entry), s') ->
  (forall o sat,
     ttlOverride entry = Some (Int o) -> o <> 0 ->
     fetch (with_satisfies evaluator sat) wrapped environment parseBody
       u requestOpts cache w
     = Fetch u requestOpts cache w)
  /\ forall pol,
       fromObject (policy entry) = Ok pol ->
       let t := dateNow (env w) in
       let w1 := {| env := env w; store := s'; trace := trace w ++ [EvGet key] |} in
       let served :=
         (Ok {| response :=
                  newNodeFetchResponse (_url pol) (_status pol)
                    (cachePolicyHeadersToNodeFetchHeadersInit
                       (responseHeaders t (clear_url pol)));
                responseFromCache := Some true;
                parsedBody := body entry;
                cacheWritePromise := None |}, w1) in
       let revalidated :=
         FetchRevalidate u request key cache (clear_url pol) (body entry) w1 in
       (forall o,
          ttlOverride entry = Some (Int o) -> o <> 0 ->
          Fetch u requestOpts cache w
          = if age t (clear_url pol) <? o then served else revalidated)
       /\ (ttlOverride entry = Some (Int 0) \/ ttlOverride entry = Some NaN
           \/ ttlOverride entry = None ->
           (Fetch u requestOpts cache w
            = if satisfiesWithoutRevalidation t (clear_url pol)
                   (policyRequestFrom u request)
              then served else revalidated)
           /\ forall sat,
                fetch (with_satisfies evaluator sat) wrapped environment parseBody
                  u requestOpts cache w
                = if sat t (clear_url pol) (policyRequestFrom u request)
                  then served else revalidated).
Proof.
  intros Hm Hs request key Hget.
  assert (Hfetch : forall sat,
            fetch (with_satisfies evaluator sat) wrapped environment parseBody
              u requestOpts cache w
            = match fromObject (policy entry) with
              | Ok pol =>
                  if fresh (with_satisfies evaluator sat) (dateNow (env w))
                       (clear_url pol) (ttlOverride entry)
                       (policyRequestFrom u request)
                  then (Ok {| response :=
                                newNodeFetchResponse (_url pol) (_status pol)
                                  (cachePolicyHeadersToNodeFetchHeadersInit
                                     (responseHeaders (dateNow (env w)) (clear_url pol)));
                              responseFromCache := Some true;
                              parsedBody := body entry;
                              cacheWritePromise := None |},
                        {| env := env w; store := s'; trace := trace w ++ [EvGet key] |})
                  else FetchRevalidate u request key cache (clear_url pol) (body entry)
                         {| env := env w; store := s'; trace := trace w ++ [EvGet key] |}
              | Rejected e =>
                  (Rejected e,
                   {| env := env w; store := s'; trace := trace w ++ [EvGet key] |})
              end).
  { intros sat. unfold fetch. cbv zeta.
    fold request. fold key.
    rewrite (bool_decide_eq_false_2 _ (with_default_method_not_head _ Hm)).
    assert (Hs' : skipCache request <> Some true) by exact Hs.
    rewrite (bool_decide_eq_false_2 _ Hs'). simpl.
    unfold bind at 1. unfold call_get. simpl.
    change (@kv_get S O wrapped (dateNow (env w)) ("httpcache:" +:+ key) (store w))
      with (@kv_get S O Cache (dateNow (env w)) key (store w)).
    rewrite Hget. unfold fetch_hit. step_world.
    destruct (fromObject (policy entry)) as [pol | e]; simpl; [| reflexivity].
    match goal with
    | |- context [if ?b then _ else _] => destruct b
    end; reflexivity. }
  assert (Hsame : Fetch u requestOpts cache w
                  = fetch (with_satisfies evaluator satisfiesWithoutRevalidation)
                      wrapped environment parseBody u requestOpts cache w)
    by (rewrite with_own_satisfies; reflexivity).
  split.
  - intros o sat Ho Hnz. rewrite Hsame, !Hfetch, Ho.
    destruct (fromObject (policy entry)) as [pol | e]; [| reflexivity].
    rewrite !fresh_with_override by exact Hnz. reflexivity.
  - intros pol Hp t w1 served revalidated. split.
    + intros o Ho Hnz. rewrite Hsame, Hfetch, Hp, Ho.
      rewrite fresh_with_override by exact Hnz. reflexivity.
    + intros Hfalsy. split.
      * rewrite Hsame, Hfetch, Hp.
        rewrite fresh_without_override by exact Hfalsy. reflexivity.
      * intros sat. rewrite Hfetch, Hp.
        rewrite fresh_without_override by exact Hfalsy. reflexivity.
Qed.

(** What the storage decision does to the store: nothing, or the [set] of
    an item with the body it was given. *)
Lemma storeResponseAndReturnClone_store u resp parsed request pol key
  cacheOptions (w : World S N O) :
  let out := StoreResponse u resp parsed request pol key cacheOptions w in
  store (snd out) = store w
  \/ exists value options,
       body value = parsed
       /\ store (snd out)
          = snd (@kv_set S O Cache (dateNow (env w)) key value options (store w)).
Proof.
  unfold storeResponseAndReturnClone. step_world.
  destruct (resolveCacheOptions cacheOptions u resp request) as [co | e];
    simpl; [| left; reflexivity].
  destruct (negb _ && negb _)%bool; simpl; [left; reflexivity |].
  destruct (number_leb_zero _); simpl; [left; reflexivity |].
  match goal with
  | |- context [@kv_set _ _ ?i ?t ?k ?v ?o ?s] =>
      destruct (@kv_set _ _ i t k v o s) as [p s'] eqn:Hset; simpl
  end.
  right. eexists _, _. split; [| rewrite Hset; reflexivity]. reflexivity.
Qed.

(** One such revalidation serves the stored body, and what it leaves in
    the store is what the lookup left there or an item with that body. *)
Lemma unmodified_revalidation_reuses_body u requestOpts cache entry
  (w w' : World S N O) r :
  unmodified_revalidation evaluator wrapped environment u requestOpts cache w entry ->
  Fetch u requestOpts cache w = (Ok r, w') ->
  parsedBody r = body entry
  /\ exists s',
       @kv_get S O Cache (dateNow (env w)) (default u (cache ≫= cacheKey)) (store w)
       = (Ok (Some entry), s')
       /\ (store w' = s'
           \/ exists t value options,
                body value = body entry
                /\ store w'
                   = snd (@kv_set S O Cache t (default u (cache ≫= cacheKey))
                            value options s')).
Proof.
  intros (Hm & Hs & s' & pol & resp & n' & pol' & Hget & Hp & Hstale & Hf & Hrev).
  unfold fetch. cbv zeta.
  set (request := with_default_method requestOpts) in *.
  set (key := default u (cache ≫= cacheKey)) in *.
  rewrite (bool_decide_eq_false_2 _ (with_default_method_not_head _ Hm)).
  assert (Hs' : skipCache request <> Some true) by exact Hs.
  rewrite (bool_decide_eq_false_2 _ Hs'). simpl.
  unfold bind at 1. unfold call_get. simpl.
  change (@kv_get S O wrapped (dateNow (env w)) ("httpcache:" +:+ key) (store w))
    with (@kv_get S O Cache (dateNow (env w)) key (store w)).
  rewrite Hget. unfold fetch_hit. step_world. rewrite Hp. simpl.
  rewrite Hstale. intros H. split.
  - apply fetch_revalidate_result in H as [_ Hbody].
    eapply Hbody; simpl; eassumption.
  - exists s'. split; [reflexivity |].
    revert H. unfold fetch_revalidate. cbv zeta. step_world.
    rewrite Hf. simpl. rewrite Hrev. simpl. intros H.
    match type of H with
    | StoreResponse ?a ?b ?c ?d ?e ?f ?g ?w0 = _ =>
        destruct (storeResponseAndReturnClone_store a b c d e f g w0)
          as [Hst | (value & options & Hb & Hst)]
    end; rewrite H in Hst; simpl in Hst.
    + left. exact Hst.
    + right. exists (dateNow n'), value, options. split; assumption.
Qed.

End Properties.

(* ------------------------------------------------------------------ *)
(** * Repeated revalidation, over the testing store *)

Section Revalidations.

Context {R O Cfg N : Type}.
Context (evaluator : CachePolicyEvaluator R O Cfg).
Context (environment : Environment N).
Variable parseBody : FetcherResponse -> Res Body.

Abbreviation Wrapped := (@FakeableKeyValueCache O).
Abbreviation TestWorld := (World (FakeableTTLTestingCache O) N O).
Abbreviation Revalidations := (revalidations evaluator environment parseBody).

Lemma fakeable_get_hit t key (s s' : FakeableTTLTestingCache O) entry :
  fakeable_get t key s = (Ok (Some entry), s') ->
  s' = s /\ exists deadline, s !! key = Some (entry, deadline).
Proof.
  unfold fakeable_get.
  destruct (s !! key) as [[value deadline] |]; [| discriminate].
  destruct (_ && _)%bool; [discriminate |].
  intros [= <- <-]. eauto.
Qed.

Lemma stored_body_is_set t key b value options (s : FakeableTTLTestingCache O) :
  body value = b ->
  stored_body_is key b s ->
  stored_body_is key b (snd (fakeable_set t ("httpcache:" +:+ key) value options s)).
Proof.
  intros Hb Hs value' deadline'. unfold fakeable_set, FakeableTTLTestingCache.
  cbn [snd]. rewrite lookup_insert_eq. intros [= <- _]. exact Hb.
Qed.

Lemma revalidations_serve key b w rs :
  Revalidations key w rs ->
  stored_body_is key b (store w) ->
  Forall (fun r => parsedBody r = b) rs.
Proof.
  induction 1 as [| w u requestOpts cache entry r w' n rs Hkey Hrev Hfetch _ IH];
    intros Hinv; constructor.
  - destruct (unmodified_revalidation_reuses_body _ _ _ _ _ _ _ _ _ _ _ Hrev Hfetch)
      as (Hbody & s' & Hget & _).
    rewrite Hkey in Hget. simpl in Hget.
    apply fakeable_get_hit in Hget as [_ [deadline Hlook]].
    rewrite Hbody. eapply Hinv; exact Hlook.
  - apply IH. simpl.
    destruct (unmodified_revalidation_reuses_body _ _ _ _ _ _ _ _ _ _ _ Hrev Hfetch)
      as (Hbody & s' & Hget & Hstore).
    rewrite Hkey in Hget, Hstore. simpl in Hget, Hstore.
    apply fakeable_get_hit in Hget as [-> [deadline Hlook]].
    destruct Hstore as [-> | (t & value & options & Hb & ->)]; [exact Hinv |].
    apply stored_body_is_set; [| exact Hinv].
    rewrite Hb. eapply Hinv; exact Hlook.
Qed.

(** C3: in a run of revalidations of a stale entry under one cache key,
    each reported unmodified by the origin, every returned [parsedBody] is
    the body the store held when the run began, however long the run. *)
Theorem unmodified_revalidations_serve_stored_body key (w : TestWorld) rs
  entry deadline :
  store w !! ("httpcache:" +:+ key) = Some (entry, deadline) ->
  revalidations evaluator environment parseBody key w rs ->
  Forall (fun r => parsedBody r = body entry) rs.
Proof.
  intros Hlook Hrun. apply (revalidations_serve key (body entry) w rs Hrun).
  intros value deadline' Hlook'. congruence.
Qed.

End Revalidations.

(* ------------------------------------------------------------------ *)
(** * The scenarios, run *)

Import Fixture Scenario.

Abbreviation TestStore := (@FakeableKeyValueCache (SneakyCachePolicy State)).

(** An outcome is settled by its result; the world after is what it is. *)
Lemma outcome_of_result {A W} (out : Res A * W) (r : Res A) :
  fst out = r -> out = (r, snd out).
Proof. destruct out. simpl. intros ->. reflexivity. Qed.

(** C1 at its failing input: a GET answered [404], which the evaluator
    finds storable, with a TTL override of 30 seconds. The override is set
    and the status is outside [200,299], and the storage decision starts a
    write all the same, with the override as TTL. *)
Example override_stores_unsuccessful_get :
  let out :=
    storeResponseAndReturnClone evaluator TestStore environment
      u gone (RawText "gone") (GET None) gone_policy u
      (Some (Static {| ttl := Some (Int 30); others := [] |}))
      (world 1000 [] ∅) in
  let written :=
    {| policy := gone_policy; ttlOverride := Some (Int 30); body := RawText "gone" |} in
  _status gone_policy = 404
  /\ ~ (200 <= _status gone_policy <= 299)
  /\ storable gone_policy = true
  /\ method (GET None) = Some "GET"
  /\ fst out = Ok {| response := gone; parsedBody := RawText "gone";
                    responseFromCache := None;
                    cacheWritePromise := Some (Ok ()) |}
  /\ trace (snd out)
     = [EvSet u written (Some {| ttl := Some (Int 30); others := [] |})]
  /\ store (snd out) !! ("httpcache:" +:+ u) = Some (written, Some 31000).
Proof.
  split; [reflexivity |]. split; [change (_status gone_policy) with 404; lia |].
  repeat split; vm_compute; reflexivity.
Qed.

(** C2, as stated, fails: a GET made with [NaN] as TTL override and
    answered by a storable response leaves an entry that carries the
    override [NaN] in the testing store. Five seconds later that entry is
    served as fresh, though its age is not less than the override, because
    the evaluator's header-based test says so; with an evaluator whose test
    says no, the same entry is revalidated. *)
Lemma nan_override_consults_evaluator :
  let pol := clear_url stored_policy in
  let written :=
    run_fetch u (GET None) (withTtl NaN) (world 1000 [Ok fresh_reply] ∅) in
  let served := run_fetch u (GET None) None (override_world NaN) in
  let refused :=
    fetch (with_satisfies evaluator (fun _ _ _ => false)) TestStore environment
      parseResponseBody u (GET None) None (override_world NaN) in
  store (snd written) !! ("httpcache:" +:+ u) = Some (override_entry NaN, None)
  /\ store (override_world NaN) = store (snd written)
  /\ ttlOverride (override_entry NaN) = Some NaN
  /\ age 6000 pol = 5
  /\ ltb_number (age 6000 pol) NaN = false
  /\ satisfiesWithoutRevalidation 6000 pol (policyRequestFrom u (GET None)) = true
  /\ ~ (fresh evaluator 6000 pol (ttlOverride (override_entry NaN))
          (policyRequestFrom u (GET None)) = true
        <-> ltb_number (age 6000 pol) NaN = true)
  /\ (exists r, fst served = Ok r /\ responseFromCache r = Some true)
  /\ trace (snd served) = [EvGet u]
  /\ existsb is_fetch (trace (snd refused)) = true.
Proof.
  repeat split; try (vm_compute; reflexivity).
  - intros [Hfresh _]. specialize (Hfresh eq_refl). vm_compute in Hfresh.
    discriminate.
  - eexists. split; vm_compute; reflexivity.
Qed.

(** C4, as stated, fails: a revalidation that the origin reports
    unmodified serves the stored body and leaves [responseFromCache]
    absent, exactly as one that the origin reports modified does; on the
    miss path the flag is absent too, not [false]. *)
Lemma responseFromCache_absent_after_revalidation :
  let unchanged := run_fetch u (GET None) None stale_world in
  let changed :=
    run_fetch u (GET None) None (world 100000 [Ok changed_reply] (store after_miss)) in
  let missed := run_fetch u (GET None) None (world 1000 [Ok fresh_reply] ∅) in
  (exists r, fst unchanged = Ok r
             /\ parsedBody r = Structured "[1]"
             /\ responseFromCache r = None
             /\ responseFromCache r <> Some true)
  /\ (exists r, fst changed = Ok r
                /\ parsedBody r = Structured "[2]"
                /\ responseFromCache r = None)
  /\ (exists r, fst missed = Ok r
                /\ responseFromCache r = None
                /\ responseFromCache r <> Some false).
Proof.
  repeat split; eexists; (split; [vm_compute; reflexivity |]);
    repeat split; discriminate.
Qed.

(** C5, as stated, fails: the evaluator returns the caller's headers with
    the validator added, and the revalidation fetch still goes out without
    the caller's empty header. *)
Lemma revalidation_drops_empty_caller_header :
  let request := GET (Some caller_headers) in
  let returned :=
    revalidationHeaders (clear_url stored_policy) (policyRequestFrom u request) in
  let sent := GET (Some [("authorization", "t"); ("if-none-match", "v1")]) in
  let out := run_fetch u request None stale_world in
  returned = [("authorization", One "t"); ("x-trace", One "");
              ("if-none-match", One "v1")]
  /\ firstn 2 (trace (snd out)) = [EvGet u; EvFetch u sent]
  /\ ~ (forall name value,
          In (name, value) caller_headers ->
          obj_get (default [] (headers sent)) name = Some value).
Proof.
  split; [reflexivity |]. split; [vm_compute; reflexivity |].
  intros H. specialize (H "x-trace" ""). simpl in H.
  assert (Hn : @None string = Some "") by (apply H; right; left; reflexivity).
  discriminate Hn.
Qed.

(** A HEAD request while the store holds an entry for the URL. *)
Lemma head_bypasses_store_witness :
  method HEAD = Some "HEAD"
  /\ let out := run_fetch u HEAD None stale_world in
     store (snd out) = store stale_world
     /\ trace (snd out) = trace stale_world ++ [EvFetch u HEAD]
     /\ forall r, fst out = Ok r -> responseFromCache r = Some false.
Proof.
  split; [reflexivity |].
  exact (head_bypasses_store evaluator TestStore environment parseResponseBody
           u HEAD None stale_world eq_refl).
Defined.

(** A HEAD request that the transport answers with a body. *)
Lemma head_body_is_empty_witness :
  method HEAD = Some "HEAD"
  /\ let w := world 1000 [Ok fresh_reply] ∅ in
     let out := run_fetch u HEAD None w in
     fst out =
       res_map (fun resp => {| response := resp; parsedBody := RawText "";
                               responseFromCache := Some false;
                               cacheWritePromise := None |})
         (fst (httpFetch u HEAD (env w)))
     /\ (forall r, fst out = Ok r -> parsedBody r = RawText "")
     /\ filter (fun e => is_parse e = true) (trace (snd out))
        = filter (fun e => is_parse e = true) (trace w).
Proof.
  split; [reflexivity |].
  exact (head_body_is_empty evaluator TestStore environment parseResponseBody
           u HEAD None (world 1000 [Ok fresh_reply] ∅) eq_refl).
Defined.

(** A GET with [skipCache] while the store holds a fresh entry: nothing is
    read, the origin is asked, and the new response is written. *)
Lemma skipCache_bypasses_read_only_witness :
  let w := world 5000 [Ok changed_reply] (store after_miss) in
  let out := run_fetch u GET_skipCache None w in
  method GET_skipCache <> Some "HEAD"
  /\ skipCache GET_skipCache = Some true
  /\ (exists evs,
        trace (snd out) = trace w ++ evs
        /\ Forall (fun e => is_get e = false) evs)
  /\ existsb is_set (trace (snd out)) = true.
Proof.
  assert (Hm : method GET_skipCache <> Some "HEAD") by discriminate.
  split; [exact Hm |]. split; [reflexivity |]. split.
  - exact (proj1 (skipCache_bypasses_read_only evaluator TestStore environment
                    parseResponseBody u GET_skipCache None
                    (world 5000 [Ok changed_reply] (store after_miss))
                    Hm eq_refl)).
  - vm_compute. reflexivity.
Defined.

(** The storage decision for three replies that the evaluator gives 60
    seconds to live: for [fresh_reply], which has an entity tag, and for
    [dated_reply], which has a modification date only, 120 seconds are
    written; for [plain_reply], which has neither, 60. *)
Lemma write_ttl_doubled_iff_revalidatable_witness :
  let w := world 1000 [] ∅ in
  let decided resp :=
    storeResponseAndReturnClone evaluator TestStore environment
      u resp (Structured "[1]") (GET None) (policy_of_reply resp) u None w in
  let r resp := {| response := resp; parsedBody := Structured "[1]";
                   responseFromCache := None; cacheWritePromise := Some (Ok ()) |} in
  let written resp seconds :=
    exists value,
      trace (snd (decided resp))
      = [EvSet u value (Some {| ttl := Some (Int seconds); others := [] |})] in
  (decided fresh_reply = (Ok (r fresh_reply), snd (decided fresh_reply))
   /\ decided dated_reply = (Ok (r dated_reply), snd (decided dated_reply))
   /\ decided plain_reply = (Ok (r plain_reply), snd (decided plain_reply)))
  /\ (timeToLive 1000 (policy_of_reply fresh_reply) = 60000
      /\ timeToLive 1000 (policy_of_reply dated_reply) = 60000
      /\ timeToLive 1000 (policy_of_reply plain_reply) = 60000)
  /\ raw (response_headers fresh_reply)
     = [("content-type", ["application/json"]); ("cache-control", ["max-age=60"]);
        ("etag", ["v1"])]
  /\ raw (response_headers dated_reply)
     = [("content-type", ["application/json"]); ("cache-control", ["max-age=60"]);
        ("last-modified", ["Mon, 02 Nov 2026 00:00:00 GMT"])]
  /\ raw (response_headers plain_reply)
     = [("content-type", ["application/json"]); ("cache-control", ["max-age=60"])]
  /\ written fresh_reply 120
  /\ written dated_reply 120
  /\ written plain_reply 60.
Proof.
  intros w decided r written.
  assert (Hfresh : decided fresh_reply = (Ok (r fresh_reply), snd (decided fresh_reply)))
    by (apply outcome_of_result; vm_compute; reflexivity).
  assert (Hdated : decided dated_reply = (Ok (r dated_reply), snd (decided dated_reply)))
    by (apply outcome_of_result; vm_compute; reflexivity).
  assert (Hplain : decided plain_reply = (Ok (r plain_reply), snd (decided plain_reply)))
    by (apply outcome_of_result; vm_compute; reflexivity).
  assert (Hw : forall resp, cacheWritePromise (r resp) <> None) by discriminate.
  split; [repeat split; assumption |].
  split; [repeat split; reflexivity |].
  split; [reflexivity |]. split; [reflexivity |]. split; [reflexivity |].
  split; [| split].
  - destruct (write_ttl_doubled_iff_revalidatable evaluator TestStore environment
                u fresh_reply (Structured "[1]") (GET None)
                (policy_of_reply fresh_reply) u None None w
                (snd (decided fresh_reply)) (r fresh_reply) eq_refl Hfresh (Hw _))
      as (computed & passed & value & (c & -> & Hc) & Hyes & _ & Htrace & _).
    change (timeToLive (dateNow (env w)) (policy_of_reply fresh_reply))
      with 60000 in Hc.
    assert (c = 60) as -> by lia.
    exists value. rewrite Htrace, Hyes; [reflexivity |].
    left. exists "etag", ["v1"]. split; [simpl; auto | reflexivity].
  - destruct (write_ttl_doubled_iff_revalidatable evaluator TestStore environment
                u dated_reply (Structured "[1]") (GET None)
                (policy_of_reply dated_reply) u None None w
                (snd (decided dated_reply)) (r dated_reply) eq_refl Hdated (Hw _))
      as (computed & passed & value & (c & -> & Hc) & Hyes & _ & Htrace & _).
    change (timeToLive (dateNow (env w)) (policy_of_reply dated_reply))
      with 60000 in Hc.
    assert (c = 60) as -> by lia.
    exists value. rewrite Htrace, Hyes; [reflexivity |].
    right. exists "last-modified", ["Mon, 02 Nov 2026 00:00:00 GMT"].
    split; [simpl; auto | reflexivity].
  - destruct (write_ttl_doubled_iff_revalidatable evaluator TestStore environment
                u plain_reply (Structured "[1]") (GET None)
                (policy_of_reply plain_reply) u None None w
                (snd (decided plain_reply)) (r plain_reply) eq_refl Hplain (Hw _))
      as (computed & passed & value & (c & -> & Hc) & _ & Hno & Htrace & _).
    change (timeToLive (dateNow (env w)) (policy_of_reply plain_reply))
      with 60000 in Hc.
    assert (c = 60) as -> by lia.
    exists value. rewrite Htrace, Hno; [reflexivity | |];
      intros (key & values & Hin & Hkey); simpl in Hin;
      destruct Hin as [[= <- <-] | [[= <- <-] | []]]; discriminate Hkey.
Defined.

(** The revalidation of the stale entry: a live fetch is made and the
    flag is absent. *)
Lemma responseFromCache_set_only_on_fresh_hit_witness :
  method (GET None) <> Some "HEAD"
  /\ run_fetch u (GET None) None stale_world = (Ok served_again, after_revalidation)
  /\ exists evs,
       trace after_revalidation = trace stale_world ++ evs
       /\ responseFromCache served_again
          = if existsb is_fetch evs then None else Some true.
Proof.
  assert (Hm : method (GET None) <> Some "HEAD") by discriminate.
  assert (Hf : run_fetch u (GET None) None stale_world
               = (Ok served_again, after_revalidation))
    by (apply outcome_of_result; vm_compute; reflexivity).
  split; [exact Hm |]. split; [exact Hf |].
  exact (responseFromCache_set_only_on_fresh_hit evaluator TestStore environment
           parseResponseBody u (GET None) None stale_world after_revalidation
           served_again Hm Hf).
Defined.

(** The stale entry and a caller with headers of their own. *)
Lemma revalidation_request_carries_evaluator_headers_witness :
  let request := GET (Some caller_headers) in
  let sent := revalidation_request evaluator u request (clear_url stored_policy) in
  fromObject (policy stored_entry) = Ok stored_policy
  /\ fresh evaluator (dateNow (env stale_world)) (clear_url stored_policy)
       (ttlOverride stored_entry) (policyRequestFrom u request) = false
  /\ (exists evs,
        trace (snd (fetch_hit evaluator TestStore environment parseResponseBody
                      u request u None stored_entry stale_world))
        = trace stale_world ++ EvFetch u sent :: evs)
  /\ headers sent = Some [("authorization", "t"); ("if-none-match", "v1")].
Proof.
  intros request sent.
  assert (Hp : fromObject (policy stored_entry) = Ok stored_policy) by reflexivity.
  assert (Hs : fresh evaluator (dateNow (env stale_world)) (clear_url stored_policy)
                 (ttlOverride stored_entry) (policyRequestFrom u request) = false)
    by reflexivity.
  split; [exact Hp |]. split; [exact Hs |]. split; [| reflexivity].
  exact (proj1 (revalidation_request_carries_evaluator_headers evaluator TestStore
                  environment parseResponseBody u request u None stored_entry
                  stored_policy stale_world Hp Hs)).
Defined.

(** The entry a GET with an override of 30 seconds left, at age 5:
    whatever the header-based test says, the fetch is the same. The entry
    a GET with an override of [NaN] left, at age 5: the fetch is what the
    header-based test makes it. *)
Lemma ttlOverride_takes_precedence_witness :
  let looked_up seconds :=
    @kv_get _ _ (keyValueCache TestStore) (dateNow (env (override_world seconds)))
      u (store (override_world seconds)) in
  method (GET None) <> Some "HEAD"
  /\ skipCache (GET None) <> Some true
  /\ looked_up (Int 30)
     = (Ok (Some (override_entry (Int 30))), snd (looked_up (Int 30)))
  /\ looked_up NaN = (Ok (Some (override_entry NaN)), snd (looked_up NaN))
  /\ (forall sat,
        fetch (with_satisfies evaluator sat) TestStore environment parseResponseBody
          u (GET None) None (override_world (Int 30))
        = run_fetch u (GET None) None (override_world (Int 30)))
  /\ exists served revalidated,
       forall sat,
         fetch (with_satisfies evaluator sat) TestStore environment
           parseResponseBody u (GET None) None (override_world NaN)
         = if sat 6000 (clear_url stored_policy) (policyRequestFrom u (GET None))
           then served else revalidated.
Proof.
  intros looked_up.
  assert (Hm : method (GET None) <> Some "HEAD") by discriminate.
  assert (Hs : skipCache (GET None) <> Some true) by discriminate.
  assert (Hg : looked_up (Int 30)
               = (Ok (Some (override_entry (Int 30))), snd (looked_up (Int 30))))
    by (apply outcome_of_result; vm_compute; reflexivity).
  assert (Hn : looked_up NaN = (Ok (Some (override_entry NaN)), snd (looked_up NaN)))
    by (apply outcome_of_result; vm_compute; reflexivity).
  assert (Hz : 30 <> 0) by lia.
  split; [exact Hm |]. split; [exact Hs |]. split; [exact Hg |].
  split; [exact Hn |]. split.
  - intros sat.
    exact (proj1 (ttlOverride_takes_precedence evaluator TestStore environment
                    parseResponseBody u (GET None) None (override_entry (Int 30))
                    (snd (looked_up (Int 30))) (override_world (Int 30)) Hm Hs Hg)
             30 sat eq_refl Hz).
  - eexists _, _. intros sat.
    exact (proj2 (proj2 (proj2 (ttlOverride_takes_precedence evaluator TestStore
                                  environment parseResponseBody u (GET None) None
                                  (override_entry NaN) (snd (looked_up NaN))
                                  (override_world NaN) Hm Hs Hn)
                           stored_policy eq_refl)
                    (or_intror (or_introl eq_refl))) sat).
Defined.

(** The first revalidation of the run below. *)
Lemma first_revalidation :
  unmodified_revalidation evaluator TestStore environment u (GET None) None
    stale_world stored_entry.
Proof.
  split; [discriminate |]. split; [discriminate |].
  exists (store stale_world), stored_policy, not_modified,
    {| clock := 100000; replies := [] |}, (revalidated_policy 100000).
  split; [apply outcome_of_result; vm_compute; reflexivity |].
  repeat split; vm_compute; reflexivity.
Qed.

(** The second one, 100 seconds later, of the entry the first one wrote. *)
Lemma second_revalidation :
  unmodified_revalidation evaluator TestStore environment u (GET None) None
    stale_again
    {| policy := revalidated_policy 100000; ttlOverride := None;
       body := Structured "[1]" |}.
Proof.
  split; [discriminate |]. split; [discriminate |].
  exists (store stale_again), (revalidated_policy 100000), not_modified,
    {| clock := 200000; replies := [] |}, (revalidated_policy 200000).
  split; [apply outcome_of_result; vm_compute; reflexivity |].
  repeat split; vm_compute; reflexivity.
Qed.

(** The stale entry revalidated twice, at times 100000 and 200000, each
    time answered [304]. *)
Lemma unmodified_revalidations_serve_stored_body_witness :
  store stale_world !! ("httpcache:" +:+ u) = Some (stored_entry, Some 121000)
  /\ revalidations evaluator environment parseResponseBody u stale_world
       [served_again; served_again]
  /\ Forall (fun r => parsedBody r = Structured "[1]") [served_again; served_again].
Proof.
  assert (Hlook : store stale_world !! ("httpcache:" +:+ u)
                  = Some (stored_entry, Some 121000)) by (vm_compute; reflexivity).
  assert (Hrun : revalidations evaluator environment parseResponseBody u stale_world
                   [served_again; served_again]).
  { apply (revalidations_cons evaluator environment parseResponseBody u
             stale_world u (GET None) None stored_entry served_again
             after_revalidation later [served_again]
             eq_refl first_revalidation).
    - apply outcome_of_result. vm_compute. reflexivity.
    - apply (revalidations_cons evaluator environment parseResponseBody u
               stale_again u (GET None) None _ served_again
               (snd (run_fetch u (GET None) None stale_again)) later []
               eq_refl second_revalidation).
      + apply outcome_of_result. vm_compute. reflexivity.
      + apply revalidations_nil. }
  split; [exact Hlook |]. split; [exact Hrun |].
  exact (unmodified_revalidations_serve_stored_body evaluator environment
           parseResponseBody u stale_world [served_again; served_again]
           stored_entry (Some 121000) Hlook Hrun).
Defined.

(* ------------------------------------------------------------------ *)
(** * The testing store *)

Section FakeableStore.

Context {O : Type}.
Implicit Types (cache : FakeableTTLTestingCache O) (value : CacheItem O).

Lemma fakeable_get_lookup t key cache :
  fakeable_get t key cache
  = match unexpired t (cache !! key) with
    | Some (value, _) => (Ok (Some value), cache)
    | None =>
        (Ok None, match cache !! key with
                  | Some _ => fakeable_delete key cache
                  | None => cache
                  end)
    end.
Proof.
  unfold fakeable_get, unexpired, expired.
  destruct (cache !! key) as [[value deadline] |]; [| reflexivity].
  destruct (_ && _)%bool; reflexivity.
Qed.

(** What a read leaves under every key: the slot it read loses an expired
    entry, the others stay. *)
Lemma fakeable_get_slots t key cache k :
  snd (fakeable_get t key cache) !! k
  = if decide (k = key) then unexpired t (cache !! k) else cache !! k.
Proof.
  rewrite fakeable_get_lookup. unfold fakeable_delete, FakeableTTLTestingCache in *.
  destruct (decide (k = key)) as [-> | Hne].
  - unfold unexpired.
    destruct (cache !! key) as [[value deadline] |] eqn:E; simpl; [| exact E].
    destruct (expired t deadline); simpl; [apply lookup_delete_eq | exact E].
  - destruct (unexpired t (cache !! key)) as [[value deadline] |]; simpl;
      [reflexivity |].
    destruct (cache !! key); [apply lookup_delete_ne; congruence | reflexivity].
Qed.

Lemma unexpired_idempotent t (slot : option (CacheItem O * option Z)) :
  unexpired t (unexpired t slot) = unexpired t slot.
Proof.
  unfold unexpired. destruct slot as [[value deadline] |]; [| reflexivity].
  destruct (expired t deadline) eqn:E; [reflexivity | rewrite E; reflexivity].
Qed.

(** Reading a list of keys one after the other. *)
Lemma fakeable_get_all_slots t (keys : list string) cache k :
  fold_left (fun c key => snd (fakeable_get t key c)) keys cache !! k
  = if bool_decide (k ∈ keys) then unexpired t (cache !! k) else cache !! k.
Proof.
  revert cache. induction keys as [| key keys IH]; intros cache; simpl;
    [reflexivity |].
  rewrite IH, fakeable_get_slots.
  destruct (decide (k = key)) as [-> | Hne].
  - rewrite (bool_decide_eq_true_2 (key ∈ key :: keys)) by (apply elem_of_cons; auto).
    rewrite unexpired_idempotent. destruct (bool_decide _); reflexivity.
  - destruct (bool_decide (k ∈ keys)) eqn:E.
    + apply bool_decide_eq_true_1 in E.
      rewrite bool_decide_eq_true_2 by (apply elem_of_cons; auto). reflexivity.
    + apply bool_decide_eq_false_1 in E.
      rewrite bool_decide_eq_false_2; [reflexivity |].
      intros [? | ?]%elem_of_cons; congruence.
Qed.

(** X1: a value that was [set] at time [t] is what [get] returns at time
    [t'], unless a TTL other than [0] was given, the deadline
    [t + ttl * 1000] is not [0] and has come; then [get] returns
    [undefined] and the entry is gone from the map. Without TTL, or with
    TTL [0], the value never expires. *)
Theorem fakeable_get_after_set t t' key value options cache :
  let seconds := integer_of (options ≫= ttl) in
  let deadline := t + seconds * 1000 in
  let gone := negb (seconds =? 0) && negb (deadline =? 0) && (deadline <=? t') in
  let read := fakeable_get t' key (snd (fakeable_set t key value options cache)) in
  fst read = Ok (if gone then None else Some value)
  /\ snd read !! key
     = if gone then None
       else Some (value, if seconds =? 0 then None else Some deadline).
Proof.
  intros seconds deadline gone read. subst read.
  rewrite fakeable_get_lookup. unfold fakeable_set, FakeableTTLTestingCache in *.
  cbn [snd]. rewrite lookup_insert_eq.
  assert (Hs : ttl (default {| ttl := None; others := [] |} options)
               = options ≫= ttl) by (destruct options; reflexivity).
  rewrite Hs. unfold unexpired, expired, fakeable_delete.
  unfold FakeableTTLTestingCache.
  destruct (options ≫= ttl) as [[s |] |] eqn:Ht; subst seconds deadline gone;
    simpl; [| split; [reflexivity | apply lookup_insert_eq] |].
  - destruct (s =? 0) eqn:Hz; simpl.
    + split; [reflexivity | apply lookup_insert_eq].
    + destruct (t + s * 1000 =? 0); simpl.
      * split; [reflexivity | apply lookup_insert_eq].
      * destruct (t + s * 1000 <=? t'); simpl.
        -- split; [reflexivity | apply lookup_delete_eq].
        -- split; [reflexivity | apply lookup_insert_eq].
  - split; [reflexivity | apply lookup_insert_eq].
Qed.

(** X2: what is done under one key of the testing store is not seen under
    another: a [set], the clean-up of a [get] and a [delete] leave every
    other key as it reads. *)
Theorem fakeable_keys_independent t t' key key' value options cache :
  key <> key' ->
  fst (fakeable_get t' key' (snd (fakeable_set t key value options cache)))
  = fst (fakeable_get t' key' cache)
  /\ snd (fakeable_get t' key cache) !! key' = cache !! key'
  /\ fst (fakeable_get t' key' (fakeable_delete key cache))
     = fst (fakeable_get t' key' cache).
Proof.
  intros Hne. repeat split.
  - rewrite !fakeable_get_lookup. unfold fakeable_set, FakeableTTLTestingCache in *.
    cbn [snd]. rewrite lookup_insert_ne by exact Hne.
    destruct (unexpired t' (cache !! key')) as [[v d] |]; reflexivity.
  - rewrite fakeable_get_slots. destruct (decide (key' = key)); congruence.
  - rewrite !fakeable_get_lookup. unfold fakeable_delete, FakeableTTLTestingCache in *.
    rewrite lookup_delete_ne by exact Hne.
    destruct (unexpired t' (cache !! key')) as [[v d] |]; reflexivity.
Qed.

Lemma in_keys_of_map cache k :
  k ∈ map fst (map_to_list cache) <-> is_Some (cache !! k).
Proof.
  unfold FakeableTTLTestingCache in *.
  rewrite list_elem_of_In, in_map_iff. split.
  - intros [[k' slot] [<- Hin]]. simpl.
    apply list_elem_of_In, elem_of_map_to_list in Hin. eauto.
  - intros [slot Hslot]. exists (k, slot). split; [reflexivity |].
    apply list_elem_of_In, elem_of_map_to_list. exact Hslot.
Qed.

(** X3: [isEmpty()] leaves in the map exactly the entries that have not
    expired, and answers [true] if and only if every entry had expired. *)
Theorem fakeable_isEmpty_purges t cache :
  (forall k, snd (fakeable_isEmpty t cache) !! k = unexpired t (cache !! k))
  /\ (fst (fakeable_isEmpty t cache) = true
      <-> forall k value deadline,
            cache !! k = Some (value, deadline) -> expired t deadline = true).
Proof.
  assert (Hslots : forall k,
            snd (fakeable_isEmpty t cache) !! k = unexpired t (cache !! k)).
  { intros k. unfold fakeable_isEmpty. cbn [snd].
    rewrite fakeable_get_all_slots.
    destruct (bool_decide (k ∈ map fst (map_to_list cache))) eqn:E;
      [reflexivity |].
    apply bool_decide_eq_false_1 in E. rewrite in_keys_of_map in E.
    destruct (cache !! k); [exfalso; apply E; eauto | reflexivity]. }
  split; [exact Hslots |].
  assert (Hfst : fst (fakeable_isEmpty t cache) = true
                 <-> snd (fakeable_isEmpty t cache) = ∅).
  { unfold fakeable_isEmpty. cbn [fst snd].
    rewrite bool_decide_eq_true. unfold FakeableTTLTestingCache in *.
    apply map_size_empty_iff. }
  rewrite Hfst. unfold FakeableTTLTestingCache in *. rewrite map_empty. split.
  - intros Hall k value deadline Hk. specialize (Hall k).
    rewrite Hslots, Hk in Hall. simpl in Hall.
    destruct (expired t deadline); [reflexivity | discriminate].
  - intros Hall k. rewrite Hslots.
    destruct (cache !! k) as [[value deadline] |] eqn:Hk; [| reflexivity].
    simpl. rewrite (Hall _ _ _ Hk). reflexivity.
Qed.

End FakeableStore.

(* ------------------------------------------------------------------ *)
(** * Header bridging, both ways *)

Lemma obj_get_fresh {V} (o : list (string * V)) k :
  ~ In k (map fst o) -> obj_get o k = None.
Proof.
  induction o as [| [k' v'] o IH]; simpl; [reflexivity |].
  intros Hnot. destruct (String.eqb_spec k' k); [tauto | apply IH; tauto].
Qed.

Lemma obj_set_fresh {V} (o : list (string * V)) k v :
  ~ In k (map fst o) -> obj_set o k v = o ++ [(k, v)].
Proof.
  induction o as [| [k' v'] o IH]; simpl; [reflexivity |].
  intros Hnot. destruct (String.eqb_spec k' k); [tauto |].
  rewrite IH by tauto. reflexivity.
Qed.

Lemma obj_get_last {V} (o : list (string * V)) k v :
  ~ In k (map fst o) -> obj_get (o ++ [(k, v)]) k = Some v.
Proof.
  induction o as [| [k' v'] o IH]; simpl.
  - rewrite String.eqb_refl. reflexivity.
  - intros Hnot. destruct (String.eqb_spec k' k); [tauto | apply IH; tauto].
Qed.

Lemma obj_set_last {V} (o : list (string * V)) k v v' :
  ~ In k (map fst o) -> obj_set (o ++ [(k, v)]) k v' = o ++ [(k, v')].
Proof.
  induction o as [| [k0 v0] o IH]; simpl.
  - rewrite String.eqb_refl. reflexivity.
  - intros Hnot. destruct (String.eqb_spec k0 k); [tauto |].
    rewrite IH by tauto. reflexivity.
Qed.

(** Over names that occur once, the loop of
    [nodeFetchHeadersToCachePolicyHeaders] goes through the headers in
    their order. *)
Lemma desingletonize_from (l : list (string * list string)) acc :
  List.NoDup (map fst acc ++ map fst l) ->
  fold_left
    (fun cachePolicyHeaders entry =>
       let '(name, values) := entry in
       obj_set cachePolicyHeaders name
         match values with
         | [v] => One v
         | _ => Many values
         end)
    l acc
  = acc ++ map (fun entry => (fst entry, desingleton (snd entry))) l.
Proof.
  revert acc. induction l as [| [n vs] l IH]; intros acc Hnd; simpl.
  - symmetry. apply app_nil_r.
  - assert (Hfresh : ~ In n (map fst acc)).
    { intros Hin. apply NoDup_remove_2 in Hnd. apply Hnd.
      apply in_or_app. left. exact Hin. }
    rewrite obj_set_fresh by exact Hfresh.
    rewrite IH.
    + rewrite <- app_assoc. reflexivity.
    + rewrite map_app, <- app_assoc. exact Hnd.
Qed.

(** X4: for a [node-fetch] response whose header names are distinct, the
    headers handed to the evaluator are the response's own in their order:
    a header with exactly one value as that string, any other with the
    array of all its values. *)
Theorem nodeFetchHeaders_desingletonized (h : Headers) :
  List.NoDup (map fst (raw h)) ->
  nodeFetchHeadersToCachePolicyHeaders h
  = map (fun entry => (fst entry, desingleton (snd entry))) (raw h).
Proof.
  intros Hnd. unfold nodeFetchHeadersToCachePolicyHeaders.
  rewrite desingletonize_from; [reflexivity | exact Hnd].
Qed.

(** The pairs [cachePolicyHeadersToNodeFetchHeadersInit] makes. *)
Lemma push_headers_from hs acc :
  fold_left push_header hs acc
  = acc ++ flat_map (fun entry => map (pair (fst entry)) (header_values (snd entry))) hs.
Proof.
  revert acc. induction hs as [| [n v] hs IH]; intros acc; simpl.
  - symmetry. apply app_nil_r.
  - rewrite IH. destruct v as [v | vs |]; simpl.
    + destruct (negb (String.eqb v "")); simpl.
      * rewrite <- app_assoc. reflexivity.
      * reflexivity.
    + rewrite <- app_assoc. reflexivity.
    + reflexivity.
Qed.

(** Among names in lower case, [find] is the search for the name itself. *)
Lemma headers_find_fresh (acc : list (string * list string)) n :
  Forall (fun k => toLowerCase k = k) (map fst acc) ->
  toLowerCase n = n ->
  ~ In n (map fst acc) ->
  headers_find acc n = None.
Proof.
  intros Hacc Hlow. induction acc as [| [k vs] acc IH]; simpl; [reflexivity |].
  intros Hnot. apply Forall_cons in Hacc as [Hk Hacc]. simpl in Hk.
  rewrite Hk, Hlow. destruct (String.eqb_spec k n); [tauto |].
  apply IH; tauto.
Qed.

Lemma headers_find_last (acc : list (string * list string)) n ws :
  Forall (fun k => toLowerCase k = k) (map fst acc) ->
  toLowerCase n = n ->
  ~ In n (map fst acc) ->
  headers_find (acc ++ [(n, ws)]) n = Some (n, ws).
Proof.
  intros Hacc Hlow. induction acc as [| [k vs] acc IH]; simpl.
  - rewrite String.eqb_refl. reflexivity.
  - intros Hnot. apply Forall_cons in Hacc as [Hk Hacc]. simpl in Hk.
    rewrite Hk, Hlow. destruct (String.eqb_spec k n); [tauto |].
    apply IH; tauto.
Qed.

(** Appending the values of one new name to a [Headers] object. *)
Lemma headers_append_values n ws vs acc :
  Forall (fun k => toLowerCase k = k) (map fst acc) ->
  toLowerCase n = n ->
  ~ In n (map fst acc) ->
  fold_left (fun a p => headers_append a (fst p) (snd p)) (map (pair n) vs)
    (acc ++ [(n, ws)])
  = acc ++ [(n, ws ++ vs)].
Proof.
  intros Hacc Hlow Hfresh. revert ws.
  induction vs as [| v vs IH]; intros ws; simpl.
  - rewrite app_nil_r. reflexivity.
  - unfold headers_append at 2. simpl.
    rewrite headers_find_last by assumption.
    rewrite obj_set_last by exact Hfresh.
    rewrite IH, <- app_assoc. reflexivity.
Qed.

Lemma headers_append_name n vs acc :
  Forall (fun k => toLowerCase k = k) (map fst acc) ->
  toLowerCase n = n ->
  ~ In n (map fst acc) ->
  vs <> [] ->
  fold_left (fun a p => headers_append a (fst p) (snd p)) (map (pair n) vs) acc
  = acc ++ [(n, vs)].
Proof.
  intros Hacc Hlow Hfresh Hvs. destruct vs as [| v vs]; [congruence |]. simpl.
  unfold headers_append at 2. simpl.
  rewrite headers_find_fresh by assumption.
  rewrite obj_set_fresh by exact Hfresh.
  apply (headers_append_values n [v] vs acc Hacc Hlow Hfresh).
Qed.

Lemma settled_header_values entry :
  settled_header entry ->
  header_values (snd entry) <> []
  /\ desingleton (header_values (snd entry)) = snd entry.
Proof.
  destruct entry as [n [v | vs |]]; unfold settled_header; simpl;
    intros [_ Hv]; [| | contradiction].
  - destruct (String.eqb_spec v ""); [contradiction |]. simpl.
    split; [discriminate | reflexivity].
  - destruct vs as [| v1 [| v2 vs]]; simpl in *; try lia.
    split; [discriminate | reflexivity].
Qed.

(** The [Headers] object built from the pairs of settled headers. *)
Lemma headers_of_pairs hs acc :
  Forall settled_header hs ->
  Forall (fun k => toLowerCase k = k) (map fst acc) ->
  List.NoDup (map fst acc ++ map fst hs) ->
  fold_left (fun a p => headers_append a (fst p) (snd p))
    (flat_map (fun entry => map (pair (fst entry)) (header_values (snd entry))) hs)
    acc
  = acc ++ map (fun entry => (fst entry, header_values (snd entry))) hs.
Proof.
  revert acc. induction hs as [| [n v] hs IH]; intros acc Hall Hacc Hnd; simpl.
  - symmetry. apply app_nil_r.
  - apply Forall_cons in Hall as [Hhead Hall].
    assert (Hfresh : ~ In n (map fst acc)).
    { intros Hin. apply NoDup_remove_2 in Hnd. apply Hnd.
      apply in_or_app. left. exact Hin. }
    rewrite fold_left_app.
    rewrite headers_append_name;
      [| exact Hacc | exact (proj1 Hhead) | exact Hfresh
       | exact (proj1 (settled_header_values _ Hhead))].
    rewrite IH.
    + rewrite <- app_assoc. reflexivity.
    + exact Hall.
    + rewrite map_app. apply Forall_app. split; [exact Hacc |].
      constructor; [exact (proj1 Hhead) | constructor].
    + rewrite map_app, <- app_assoc. exact Hnd.
Qed.

(** X5: settled headers with distinct names survive the round a cached
    response makes: turned into the pairs of a [node-fetch] response and
    read back for the evaluator, they are the headers one started from,
    repeated values kept apart and in order. *)
Theorem cached_headers_round_trip (hs : CachePolicyHeaders) :
  Forall settled_header hs ->
  List.NoDup (map fst hs) ->
  nodeFetchHeadersToCachePolicyHeaders
    (newNodeFetchHeaders (cachePolicyHeadersToNodeFetchHeadersInit hs))
  = hs.
Proof.
  intros Hall Hnd.
  assert (Hraw : raw (newNodeFetchHeaders (cachePolicyHeadersToNodeFetchHeadersInit hs))
                 = map (fun entry => (fst entry, header_values (snd entry))) hs).
  { unfold newNodeFetchHeaders, cachePolicyHeadersToNodeFetchHeadersInit. simpl.
    rewrite push_headers_from. simpl.
    rewrite headers_of_pairs; [reflexivity | exact Hall | constructor | exact Hnd]. }
  unfold nodeFetchHeadersToCachePolicyHeaders.
  rewrite desingletonize_from; rewrite Hraw.
  - rewrite map_map. simpl.
    clear Hraw Hnd. induction Hall as [| [n v] hs Hhead _ IH]; simpl;
      [reflexivity |].
    pose proof (proj2 (settled_header_values _ Hhead)) as Hd. simpl in Hd.
    rewrite IH, Hd. reflexivity.
  - rewrite map_map. simpl. exact Hnd.
Qed.

Lemma set_headers_lookup_from hs acc name :
  List.NoDup (map fst hs) ->
  obj_get (fold_left set_header hs acc) name
  = match obj_get hs name with
    | Some (One v) => if String.eqb v "" then obj_get acc name else Some v
    | Some (Many vs) => Some (join ", " vs)
    | Some Undefined | None => obj_get acc name
    end.
Proof.
  revert acc. induction hs as [| [n v] hs IH]; intros acc Hnd; simpl;
    [reflexivity |].
  apply NoDup_cons_iff in Hnd as [Hfresh Hnd].
  destruct (String.eqb_spec n name) as [-> | Hne].
  - rewrite set_headers_other by exact Hfresh.
    destruct v as [v | vs |]; simpl; [| apply obj_get_set_eq | reflexivity].
    destruct (String.eqb v ""); simpl; [reflexivity | apply obj_get_set_eq].
  - rewrite IH by exact Hnd.
    destruct v as [v | vs |]; simpl; try destruct (negb (String.eqb v ""));
      rewrite ?obj_get_set_ne by exact Hne; reflexivity.
Qed.

(** X6: of headers with distinct names, the record of strings that
    [cachePolicyHeadersToFetcherHeadersInit] makes holds, under each name,
    the string itself if it is not empty and the values joined by [', ']
    if it is an array; an empty string and [undefined] leave no header. *)
Theorem fetcher_headers_lookup (hs : CachePolicyHeaders) name :
  List.NoDup (map fst hs) ->
  obj_get (cachePolicyHeadersToFetcherHeadersInit hs) name
  = match obj_get hs name with
    | Some (One v) => if String.eqb v "" then None else Some v
    | Some (Many vs) => Some (join ", " vs)
    | Some Undefined | None => None
    end.
Proof.
  intros Hnd. unfold cachePolicyHeadersToFetcherHeadersInit.
  rewrite set_headers_lookup_from by exact Hnd. reflexivity.
Qed.

(* ------------------------------------------------------------------ *)
(** * The orchestrator: calls, failures and what is stored *)

Section Conduct.

Context {R O Cfg S N : Type}.
Context (evaluator : CachePolicyEvaluator R O Cfg).
Context (wrapped : KeyValueCache S O).
Context (environment : Environment N).
Variable parseBody : FetcherResponse -> Res Body.

Abbreviation Fetch := (fetch evaluator wrapped environment parseBody).
Abbreviation FetchMiss := (fetch_miss evaluator wrapped environment parseBody).
Abbreviation FetchHit := (fetch_hit evaluator wrapped environment parseBody).
Abbreviation FetchRevalidate :=
  (fetch_revalidate evaluator wrapped environment parseBody).
Abbreviation StoreResponse :=
  (storeResponseAndReturnClone evaluator wrapped environment).
Abbreviation Cache := (keyValueCache wrapped).

Lemma storeResponseAndReturnClone_calls u resp parsed request pol key
  cacheOptions (w : World S N O) :
  exists sets,
    trace (snd (StoreResponse u resp parsed request pol key cacheOptions w))
    = trace w ++ sets
    /\ at_most_one (fun e => exists value options, e = EvSet key value options) sets.
Proof.
  destruct (storeResponseAndReturnClone_effect evaluator wrapped environment
              u resp parsed request pol key cacheOptions w)
    as [_ [(Ht & _) | (value & options & Ht)]].
  - exists []. rewrite app_nil_r. split; [exact Ht | constructor].
  - exists [EvSet key value options]. split; [exact Ht |].
    constructor. eauto.
Qed.

Lemma fetch_miss_calls u request key cache (w : World S N O) :
  exists evs,
    trace (snd (FetchMiss u request key cache w)) = trace w ++ evs
    /\ after_live_fetch u key evs.
Proof.
  unfold fetch_miss. step_world.
  destruct (httpFetch u request (env w)) as [[resp | e] n']; simpl;
    [| exists [EvFetch u request]; split; [reflexivity |];
       exists request, [], []; repeat split; constructor].
  destruct (newCachePolicy _ _ _ _) as [pol | e]; simpl;
    [| exists [EvFetch u request]; split; [reflexivity |];
       exists request, [], []; repeat split; constructor].
  destruct (parseBody resp) as [parsed | e]; simpl.
  - match goal with
    | |- context [StoreResponse ?a ?b ?c ?d ?e ?f ?g ?w0] =>
        destruct (storeResponseAndReturnClone_calls a b c d e f g w0)
          as (sets & Ht & Hsets)
    end.
    rewrite Ht. simpl. exists ([EvFetch u request] ++ [EvParse resp] ++ sets).
    split; [rewrite <- !app_assoc; reflexivity |].
    exists request, [EvParse resp], sets. repeat split; [constructor; eauto | exact Hsets].
  - exists ([EvFetch u request] ++ [EvParse resp] ++ []).
    split; [rewrite <- !app_assoc; reflexivity |].
    exists request, [EvParse resp], []. repeat split; constructor; eauto.
Qed.

Lemma fetch_revalidate_calls u request key cache pol stored (w : World S N O) :
  exists evs,
    trace (snd (FetchRevalidate u request key cache pol stored w)) = trace w ++ evs
    /\ after_live_fetch u key evs.
Proof.
  unfold fetch_revalidate. cbv zeta. step_world.
  set (sent := revalidation_request evaluator u request pol).
  destruct (httpFetch u sent (env w)) as [[resp | e] n']; simpl;
    [| exists [EvFetch u sent]; split; [reflexivity |];
       exists sent, [], []; repeat split; constructor].
  destruct (revalidatedPolicy _ _ _ _) as [[pol' modified] | e]; simpl;
    [| exists [EvFetch u sent]; split; [reflexivity |];
       exists sent, [], []; repeat split; constructor].
  destruct modified; simpl.
  - destruct (parseBody resp) as [parsed | e]; simpl.
    + match goal with
      | |- context [StoreResponse ?a ?b ?c ?d ?e ?f ?g ?w0] =>
          destruct (storeResponseAndReturnClone_calls a b c d e f g w0)
            as (sets & Ht & Hsets)
      end.
      rewrite Ht. simpl. exists ([EvFetch u sent] ++ [EvParse resp] ++ sets).
      split; [rewrite <- !app_assoc; reflexivity |].
      exists sent, [EvParse resp], sets.
      repeat split; [constructor; eauto | exact Hsets].
    + exists ([EvFetch u sent] ++ [EvParse resp] ++ []).
      split; [rewrite <- !app_assoc; reflexivity |].
      exists sent, [EvParse resp], []. repeat split; constructor; eauto.
  - match goal with
    | |- context [StoreResponse ?a ?b ?c ?d ?e ?f ?g ?w0] =>
        destruct (storeResponseAndReturnClone_calls a b c d e f g w0)
          as (sets & Ht & Hsets)
    end.
    rewrite Ht. simpl. exists ([EvFetch u sent] ++ [] ++ sets).
    split; [rewrite <- !app_assoc; reflexivity |].
    exists sent, [], sets. repeat split; [constructor | exact Hsets].
Qed.

Lemma fetch_hit_calls u request key cache entry (w : World S N O) :
  exists evs,
    trace (snd (FetchHit u request key cache entry w)) = trace w ++ evs
    /\ (evs = [] \/ after_live_fetch u key evs).
Proof.
  unfold fetch_hit. step_world.
  destruct (fromObject (policy entry)) as [pol | e]; simpl;
    [| exists []; rewrite app_nil_r; auto].
  destruct (fresh _ _ _ _ _); simpl; [exists []; rewrite app_nil_r; auto |].
  destruct (fetch_revalidate_calls u request key cache (clear_url pol)
              (body entry) w) as (evs & Ht & Hevs).
  exists evs. auto.
Qed.

Lemma after_live_fetch_calls u key gets evs :
  at_most_one (fun e : Event O => e = EvGet key) gets ->
  evs = [] \/ after_live_fetch u key evs ->
  fetch_calls u key (gets ++ evs).
Proof.
  intros Hgets [-> | (request & parses & sets & -> & Hp & Hs)].
  - exists gets, [], [], []. repeat split; try constructor; try exact Hgets.
  - exists gets, [EvFetch u request], parses, sets.
    repeat split; try assumption; try discriminate.
    constructor. eauto.
Qed.

(** X7: whatever happens, one [fetch] makes at most one [get], one live
    fetch, one parse and one [set], in this order; the [get] and the [set]
    are under the cache key (the given one, or the URL), the live fetch is
    of the URL, and nothing is parsed or written without a live fetch. *)
Theorem fetch_calls_in_order u requestOpts cache (w : World S N O) :
  exists evs,
    trace (snd (Fetch u requestOpts cache w)) = trace w ++ evs
    /\ fetch_calls u (default u (cache ≫= cacheKey)) evs.
Proof.
  unfold fetch. cbv zeta.
  set (request := with_default_method requestOpts).
  set (key := default u (cache ≫= cacheKey)).
  destruct (bool_decide (method request = Some "HEAD")).
  - step_world. destruct (httpFetch u request (env w)) as [[resp | e] n']; simpl;
      exists [EvFetch u request]; (split; [reflexivity |]);
      (apply (after_live_fetch_calls u key []);
       [constructor | right; exists request, [], []; repeat split; constructor]).
  - destruct (negb (bool_decide (skipCache request = Some true))).
    + unfold bind at 1. unfold call_get.
      destruct (@kv_get S O Cache _ _ _) as [[[entry |] | e] s'].
      * match goal with
        | |- context [FetchHit ?a ?b ?c ?d ?e ?w0] =>
            destruct (fetch_hit_calls a b c d e w0) as (evs & Ht & Hevs)
        end.
        rewrite Ht. simpl. exists ([EvGet key] ++ evs).
        split; [rewrite <- app_assoc; reflexivity |].
        apply after_live_fetch_calls; [constructor; reflexivity | exact Hevs].
      * match goal with
        | |- context [FetchMiss ?a ?b ?c ?d ?w0] =>
            destruct (fetch_miss_calls a b c d w0) as (evs & Ht & Hevs)
        end.
        rewrite Ht. simpl. exists ([EvGet key] ++ evs).
        split; [rewrite <- app_assoc; reflexivity |].
        apply after_live_fetch_calls; [constructor; reflexivity | auto].
      * simpl. exists ([EvGet key] ++ []). split; [reflexivity |].
        apply after_live_fetch_calls; [constructor; reflexivity | auto].
    + unfold bind at 1. unfold ret.
      destruct (fetch_miss_calls u request key cache w) as (evs & Ht & Hevs).
      exists evs. split; [exact Ht |].
      apply (after_live_fetch_calls u key []); [constructor | auto].
Qed.

(** X8: when the store's [get] rejects, [fetch] rejects for the same
    reason; the failure is not turned into a miss, and no live fetch, parse
    or [set] follows. *)
Theorem store_read_failure_fails_fetch u requestOpts cache reason s'
  (w : World S N O) :
  method requestOpts <> Some "HEAD" ->
  skipCache requestOpts <> Some true ->
  let key := default u (cache ≫= cacheKey) in
  @kv_get S O Cache (dateNow (env w)) key (store w) = (Rejected reason, s') ->
  Fetch u requestOpts cache w
  = (Rejected reason,
     {| env := env w; store := s'; trace := trace w ++ [EvGet key] |}).
Proof.
  intros Hm Hs key Hget. unfold fetch. cbv zeta. fold key.
  rewrite (bool_decide_eq_false_2 _ (with_default_method_not_head _ Hm)).
  assert (Hs' : skipCache (with_default_method requestOpts) <> Some true)
    by exact Hs.
  rewrite (bool_decide_eq_false_2 _ Hs'). simpl.
  unfold bind at 1. unfold call_get. simpl.
  change (@kv_get S O wrapped (dateNow (env w)) ("httpcache:" +:+ key) (store w))
    with (@kv_get S O Cache (dateNow (env w)) key (store w)).
  rewrite Hget. reflexivity.
Qed.

(** X9: once the cache options are known, the storage decision always
    returns, and returns the response and the body it was given: a [set]
    that rejects shows in [cacheWritePromise] only. *)
Theorem storage_decision_never_rejects u resp parsed request pol key
  cacheOptions co (w : World S N O) :
  resolveCacheOptions cacheOptions u resp request = Ok co ->
  exists promise,
    fst (StoreResponse u resp parsed request pol key cacheOptions w)
    = Ok {| response := resp; parsedBody := parsed;
            responseFromCache := None; cacheWritePromise := promise |}
    /\ forall reason,
         promise = Some (Rejected reason) ->
         exists t value options s',
           @kv_set S O Cache t key value options (store w) = (Rejected reason, s').
Proof.
  intros Hco. unfold storeResponseAndReturnClone. step_world.
  rewrite Hco. simpl.
  destruct (negb _ && negb _)%bool; simpl;
    [exists None; split; [reflexivity | discriminate] |].
  destruct (number_leb_zero _); simpl;
    [exists None; split; [reflexivity | discriminate] |].
  match goal with
  | |- context [@kv_set _ _ ?i ?t ?k ?v ?o ?s] =>
      destruct (@kv_set _ _ i t k v o s) as [p s'] eqn:Hset; simpl
  end.
  exists (Some p). split; [reflexivity |].
  intros reason [= ->]. eexists _, _, _, _. exact Hset.
Qed.

(** X10: the item of every write the storage decision starts holds the
    body that is returned and the serialized policy; its [ttlOverride] is
    the [ttl] of the cache options, which is absent, a positive number or
    [NaN], never [0] and never negative; and the TTL handed to the store is
    a positive number, or [NaN] when the [ttl] of the cache options is
    [NaN]. *)
Theorem written_item_matches_result u resp parsed request pol key cacheOptions co
  (w w' : World S N O) r :
  resolveCacheOptions cacheOptions u resp request = Ok co ->
  StoreResponse u resp parsed request pol key cacheOptions w = (Ok r, w') ->
  cacheWritePromise r <> None ->
  exists seconds,
    trace w'
    = trace w ++ [EvSet key
                    {| policy := toObject pol; ttlOverride := co ≫= ttl;
                       body := parsedBody r |}
                    (Some {| ttl := Some seconds;
                             others := default [] (others <$> co) |})]
    /\ match seconds with
       | Int s => 0 < s
       | NaN => co ≫= ttl = Some NaN
       end
    /\ (co ≫= ttl = None
        \/ (co ≫= ttl = Some NaN /\ seconds = NaN)
        \/ exists o, co ≫= ttl = Some (Int o) /\ 0 < o).
Proof.
  intros Hco. unfold storeResponseAndReturnClone, computed_ttl. step_world.
  rewrite Hco. simpl.
  destruct (negb _ && negb _)%bool; simpl;
    [intros [= <- <-]; simpl; congruence |].
  destruct (number_leb_zero _) eqn:Hpos; simpl; [intros [= <- <-]; simpl; congruence |].
  match goal with
  | |- context [@kv_set _ _ ?i ?t ?k ?v ?o ?s] =>
      destruct (@kv_set _ _ i t k v o s) as [p s']; simpl
  end.
  intros [= <- <-] _. simpl. eexists. split; [reflexivity |].
  destruct (co ≫= ttl) as [[o |] |]; simpl in Hpos; try apply Z.leb_gt in Hpos;
    destruct (canBeRevalidated resp); simpl; split;
    try lia; try reflexivity; auto; right; right; eauto.
Qed.

(** X11: while every live fetch rejects, a [fetch] returns only what it
    can serve as a fresh hit; it rejects otherwise, and it neither parses
    nor writes. *)
Theorem without_network_only_fresh_hits u requestOpts cache reason
  (w : World S N O) :
  (forall u' request, fst (httpFetch u' request (env w)) = Rejected reason) ->
  let out := Fetch u requestOpts cache w in
  (forall r, fst out = Ok r -> responseFromCache r = Some true)
  /\ exists evs,
       trace (snd out) = trace w ++ evs
       /\ existsb is_set evs = false
       /\ existsb is_parse evs = false.
Proof.
  intros Hdown.
  assert (Hmiss : forall request key w0,
            env w0 = env w ->
            fst (FetchMiss u request key cache w0) = Rejected reason
            /\ trace (snd (FetchMiss u request key cache w0))
               = trace w0 ++ [EvFetch u request]).
  { intros request key w0 Henv. unfold fetch_miss. step_world. rewrite Henv.
    specialize (Hdown u request).
    destruct (httpFetch u request (env w)) as [[resp | e] n']; simpl in *;
      [discriminate |].
    injection Hdown as ->. split; reflexivity. }
  assert (Hrev : forall request key pol stored w0,
            env w0 = env w ->
            fst (FetchRevalidate u request key cache pol stored w0) = Rejected reason
            /\ exists sent,
                 trace (snd (FetchRevalidate u request key cache pol stored w0))
                 = trace w0 ++ [EvFetch u sent]).
  { intros request key pol stored w0 Henv. unfold fetch_revalidate. cbv zeta.
    step_world. rewrite Henv.
    specialize (Hdown u (revalidation_request evaluator u request pol)).
    destruct (httpFetch u _ (env w)) as [[resp | e] n']; simpl in *;
      [discriminate |].
    injection Hdown as ->. split; [reflexivity | eauto]. }
  unfold fetch. cbv zeta.
  set (request := with_default_method requestOpts).
  set (key := default u (cache ≫= cacheKey)).
  destruct (bool_decide (method request = Some "HEAD")).
  - step_world. specialize (Hdown u request).
    destruct (httpFetch u request (env w)) as [[resp | e] n']; simpl in *;
      [discriminate |].
    split; [intros r [=] |]. exists [EvFetch u request]. repeat split.
  - destruct (negb (bool_decide (skipCache request = Some true))).
    + step_world.
      match goal with
      | |- context [@kv_get _ _ ?i ?t ?k ?s] =>
          destruct (@kv_get _ _ i t k s) as [[[entry |] | e] s']; simpl
      end.
      * unfold fetch_hit. step_world.
        destruct (fromObject (policy entry)) as [pol | e]; simpl.
        -- destruct (fresh _ _ _ _ _); simpl.
           ++ split; [intros r [= <-]; reflexivity |].
              exists [EvGet key]. repeat split.
           ++ match goal with
              | |- context [FetchRevalidate ?a ?b ?c ?d ?e ?f ?w0] =>
                  destruct (Hrev b c e f w0 eq_refl) as [Hr [sent Ht]]
              end.
              rewrite Hr, Ht. simpl. split; [intros r [=] |].
              exists [EvGet key; EvFetch u sent].
              split; [rewrite <- app_assoc; reflexivity | split; reflexivity].
        -- split; [intros r [=] |]. exists [EvGet key]. repeat split.
      * match goal with
        | |- context [FetchMiss ?a ?b ?c ?d ?w0] =>
            destruct (Hmiss b c w0 eq_refl) as [Hr Ht]
        end.
        rewrite Hr, Ht. simpl. split; [intros r [=] |].
        exists [EvGet key; EvFetch u request].
        split; [rewrite <- app_assoc; reflexivity | split; reflexivity].
      * simpl. split; [intros r [=] |]. exists [EvGet key]. repeat split.
    + step_world.
      destruct (Hmiss request key w eq_refl) as [Hr Ht].
      rewrite Hr, Ht. split; [intros r [=] |].
      exists [EvFetch u request]. repeat split.
Qed.

(** X12: a result with [responseFromCache = true] is the entry the store
    returned for the cache key: its body is the entry's, its status and URL
    are those of the stored policy, and apart from the one [get] nothing
    was called and the environment is as it was. *)
Theorem served_from_cache_is_stored_entry u requestOpts cache
  (w w' : World S N O) r :
  Fetch u requestOpts cache w = (Ok r, w') ->
  responseFromCache r = Some true ->
  let key := default u (cache ≫= cacheKey) in
  exists entry s' pol,
    @kv_get S O Cache (dateNow (env w)) key (store w) = (Ok (Some entry), s')
    /\ fromObject (policy entry) = Ok pol
    /\ parsedBody r = body entry
    /\ status (response r) = _status pol
    /\ url (response r) = _url pol
    /\ w' = {| env := env w; store := s'; trace := trace w ++ [EvGet key] |}.
Proof.
  unfold fetch. cbv zeta.
  set (request := with_default_method requestOpts).
  set (key := default u (cache ≫= cacheKey)).
  assert (Hmiss : forall w0,
            FetchMiss u request key cache w0 = (Ok r, w') ->
            responseFromCache r <> Some true).
  { intros w0 H. apply fetch_miss_result in H as [Hflag _]. congruence. }
  destruct (bool_decide (method request = Some "HEAD")).
  - step_world. destruct (httpFetch u request (env w)) as [[resp | e] n'];
      simpl; [| discriminate].
    intros [= <- <-]. discriminate.
  - destruct (negb (bool_decide (skipCache request = Some true)));
      [| step_world; intros H Hflag; exfalso; exact (Hmiss _ H Hflag)].
    unfold bind at 1. unfold call_get.
    change (@kv_get S O (keyValueCache wrapped) (dateNow (env w)) key (store w))
      with (@kv_get S O Cache (dateNow (env w)) key (store w)).
    destruct (@kv_get S O Cache (dateNow (env w)) key (store w))
      as [[[entry |] | e] s'] eqn:Hget; [| | discriminate].
    + unfold fetch_hit. step_world.
      destruct (fromObject (policy entry)) as [pol | e] eqn:Hp; simpl;
        [| discriminate].
      destruct (fresh _ _ _ _ _); simpl.
      * intros [= <- <-] _. exists entry, s', pol. repeat split; assumption.
      * intros H Hflag. apply fetch_revalidate_result in H as [Hnone _].
        congruence.
    + intros H Hflag. exfalso. exact (Hmiss _ H Hflag).
Qed.

(** X13: a revalidation that the evaluator reports modified returns the
    parse of the new response as body, with a response made up from the
    revalidated policy (not the transport's own); what it writes to the
    store, if anything, is an item with the new body. *)
Theorem modified_revalidation_serves_new_body u request key cache pol stored
  resp n' pol' (w w' : World S N O) r :
  httpFetch u (revalidation_request evaluator u request pol) (env w)
  = (Ok resp, n') ->
  revalidatedPolicy (dateNow n') pol
    (policyRequestFrom u (revalidation_request evaluator u request pol))
    (policyResponseFrom resp) = Ok (pol', true) ->
  FetchRevalidate u request key cache pol stored w = (Ok r, w') ->
  parseBody resp = Ok (parsedBody r)
  /\ response r
     = newNodeFetchResponse (_url pol') (_status pol')
         (cachePolicyHeadersToNodeFetchHeadersInit
            (responseHeaders (dateNow n') pol'))
  /\ (store w' = store w
      \/ exists value options,
           body value = parsedBody r
           /\ store w'
              = snd (@kv_set S O Cache (dateNow n') key value options (store w))).
Proof.
  intros Hf Hrev. unfold fetch_revalidate. cbv zeta. step_world.
  rewrite Hf. simpl. rewrite Hrev. simpl.
  destruct (parseBody resp) as [parsed | e]; simpl; [| discriminate].
  intros H.
  destruct (storeResponseAndReturnClone_result evaluator wrapped environment
              _ _ _ _ _ _ _ _ _ _ H) as (_ & Hbody & Hresp).
  rewrite Hbody, Hresp. repeat split.
  match type of H with
  | StoreResponse ?a ?b ?c ?d ?e ?f ?g ?w0 = _ =>
      destruct (storeResponseAndReturnClone_store evaluator wrapped environment
                  a b c d e f g w0) as [Hst | (value & options & Hb & Hst)]
  end; rewrite H in Hst; simpl in Hst.
  - left. exact Hst.
  - right. exists value, options. split; assumption.
Qed.

(** X14: on the miss path the caller gets the transport's own response
    and the parse of it as body; what is written to the store, if
    anything, is an item with that body. *)
Theorem miss_returns_live_response u request key cache (w w' : World S N O) r :
  FetchMiss u request key cache w = (Ok r, w') ->
  exists n',
    httpFetch u request (env w) = (Ok (response r), n')
    /\ parseBody (response r) = Ok (parsedBody r)
    /\ (store w' = store w
        \/ exists value options,
             body value = parsedBody r
             /\ store w'
                = snd (@kv_set S O Cache (dateNow n') key value options (store w))).
Proof.
  unfold fetch_miss. step_world.
  destruct (httpFetch u request (env w)) as [[resp | e] n']; simpl;
    [| discriminate].
  destruct (newCachePolicy _ _ _ _) as [pol | e]; simpl; [| discriminate].
  destruct (parseBody resp) as [parsed | e] eqn:Hparse; simpl; [| discriminate].
  intros H.
  destruct (storeResponseAndReturnClone_result evaluator wrapped environment
              _ _ _ _ _ _ _ _ _ _ H) as (_ & Hbody & Hresp).
  rewrite Hbody, Hresp. exists n'. split; [reflexivity |]. split; [exact Hparse |].
  match type of H with
  | StoreResponse ?a ?b ?c ?d ?e ?f ?g ?w0 = _ =>
      destruct (storeResponseAndReturnClone_store evaluator wrapped environment
                  a b c d e f g w0) as [Hst | (value & options & Hb & Hst)]
  end; rewrite H in Hst; simpl in Hst.
  - left. exact Hst.
  - right. exists value, options. split; assumption.
Qed.

(** The world a write of the storage decision leaves. *)
Lemma storeResponseAndReturnClone_written u resp parsed request pol key
  cacheOptions co (w w' : World S N O) r :
  resolveCacheOptions cacheOptions u resp request = Ok co ->
  StoreResponse u resp parsed request pol key cacheOptions w = (Ok r, w') ->
  cacheWritePromise r <> None ->
  let computed := computed_ttl evaluator (dateNow (env w)) pol co in
  let seconds :=
    if canBeRevalidated resp then number_double computed else computed in
  let value :=
    {| policy := toObject pol; ttlOverride := co ≫= ttl; body := parsed |} in
  let options :=
    Some {| ttl := Some seconds; others := default [] (others <$> co) |} in
  number_leb_zero seconds = false
  /\ w' = {| env := env w;
             store := snd (@kv_set S O Cache (dateNow (env w)) key value options
                             (store w));
             trace := trace w ++ [EvSet key value options] |}.
Proof.
  intros Hco. unfold storeResponseAndReturnClone, computed_ttl. step_world.
  rewrite Hco. simpl.
  destruct (negb _ && negb _)%bool; simpl;
    [intros [= <- <-]; simpl; congruence |].
  destruct (number_leb_zero _) eqn:Hpos; simpl; [intros [= <- <-]; simpl; congruence |].
  match goal with
  | |- context [@kv_set _ _ ?i ?t ?k ?v ?o ?s] =>
      destruct (@kv_set _ _ i t k v o s) as [p s'] eqn:Hset; simpl
  end.
  intros [= <- <-] _. split.
  - destruct (canBeRevalidated resp); [| exact Hpos].
    destruct (match co ≫= ttl with Some o => o | None => _ end) as [c |];
      simpl in *; [| reflexivity].
    apply Z.leb_gt in Hpos. apply Z.leb_gt. lia.
  - unfold with_ttl in Hset. rewrite Hset. reflexivity.
Qed.

End Conduct.

(* ------------------------------------------------------------------ *)
(** * The default store *)

Section DefaultStore.

Context {R O Cfg N : Type}.
Context (evaluator : CachePolicyEvaluator R O Cfg).
Context (environment : Environment N).
Variable parseBody : FetcherResponse -> Res Body.

(** X15: over [NoopKeyValueCache], the store an [HTTPCache] has by
    default, nothing is ever served from the cache: every non-HEAD fetch
    that returns went to the origin with the caller's own request, and
    returns the origin's response with its parsed body. *)
Theorem noop_cache_always_goes_to_origin u requestOpts cache
  (w w' : World unit N O) r :
  method requestOpts <> Some "HEAD" ->
  fetch evaluator NoopKeyValueCache environment parseBody u requestOpts cache w
  = (Ok r, w') ->
  responseFromCache r = None
  /\ exists n',
       httpFetch u (with_default_method requestOpts) (env w) = (Ok (response r), n')
       /\ parseBody (response r) = Ok (parsedBody r).
Proof.
  intros Hm. unfold fetch. cbv zeta.
  rewrite (bool_decide_eq_false_2 _ (with_default_method_not_head _ Hm)).
  set (request := with_default_method requestOpts).
  set (key := default u (cache ≫= cacheKey)).
  assert (Hmiss : forall w0,
            env w0 = env w ->
            fetch_miss evaluator NoopKeyValueCache environment parseBody
              u request key cache w0 = (Ok r, w') ->
            responseFromCache r = None
            /\ exists n',
                 httpFetch u request (env w) = (Ok (response r), n')
                 /\ parseBody (response r) = Ok (parsedBody r)).
  { intros w0 Henv. unfold fetch_miss. step_world. rewrite Henv.
    destruct (httpFetch u request (env w)) as [[resp | e] n']; simpl;
      [| discriminate].
    destruct (newCachePolicy _ _ _ _) as [pol | e]; simpl; [| discriminate].
    destruct (parseBody resp) as [parsed | e] eqn:Hparse; simpl; [| discriminate].
    intros H.
    destruct (storeResponseAndReturnClone_result evaluator NoopKeyValueCache
                environment _ _ _ _ _ _ _ _ _ _ H) as (Hflag & Hbody & Hresp).
    rewrite Hbody, Hresp. split; [exact Hflag |]. exists n'. split; [reflexivity | exact Hparse]. }
  destruct (negb (bool_decide (skipCache request = Some true))).
  - unfold bind at 1. unfold call_get. simpl. apply Hmiss. reflexivity.
  - unfold bind at 1. unfold ret. apply Hmiss. reflexivity.
Qed.

End DefaultStore.

(* ------------------------------------------------------------------ *)
(** * From a write to the next fetch, over the testing store *)

Section WriteThenRead.

Context {R O Cfg N : Type}.
Context (evaluator : CachePolicyEvaluator R O Cfg).
Context (environment : Environment N).
Variable parseBody : FetcherResponse -> Res Body.

Abbreviation Wrapped := (@FakeableKeyValueCache O).

(** X16: what the storage decision wrote is what a later fetch under the
    same cache key serves, whatever its URL: if the evaluator reads back
    the policy it serialized, the time is before the deadline of the
    write and the entry tests fresh, then the fetch makes no live fetch
    and returns the body that was stored, with the status and the URL of
    the stored policy and [responseFromCache = true]. *)
Theorem written_response_is_served_back u resp parsed request pol key
  cacheOptions co r1 u2 requestOpts2 cache2 n2
  (w w1 : World (FakeableTTLTestingCache O) N O) :
  resolveCacheOptions cacheOptions u resp request = Ok co ->
  storeResponseAndReturnClone evaluator Wrapped environment
    u resp parsed request pol key cacheOptions w = (Ok r1, w1) ->
  cacheWritePromise r1 <> None ->
  method requestOpts2 <> Some "HEAD" ->
  skipCache requestOpts2 <> Some true ->
  default u2 (cache2 ≫= cacheKey) = key ->
  fromObject (toObject pol) = Ok pol ->
  let t := dateNow (env w) in
  let t2 := dateNow n2 in
  let computed := computed_ttl evaluator t pol co in
  match (if canBeRevalidated resp then number_double computed else computed) with
  | Int seconds => t2 < t + seconds * 1000
  | NaN => True
  end ->
  fresh evaluator t2 (clear_url pol) (co ≫= ttl)
    (policyRequestFrom u2 (with_default_method requestOpts2)) = true ->
  fetch evaluator Wrapped environment parseBody u2 requestOpts2 cache2
    {| env := n2; store := store w1; trace := trace w1 |}
  = (Ok {| response :=
             newNodeFetchResponse (_url pol) (_status pol)
               (cachePolicyHeadersToNodeFetchHeadersInit
                  (responseHeaders t2 (clear_url pol)));
           parsedBody := parsed;
           responseFromCache := Some true;
           cacheWritePromise := None |},
     {| env := n2; store := store w1; trace := trace w1 ++ [EvGet key] |}).
Proof.
  intros Hco Hstore Hwrite Hm Hs Hkey Hround t t2 computed Hearly Hfresh.
  destruct (storeResponseAndReturnClone_written evaluator Wrapped environment
              u resp parsed request pol key cacheOptions co w w1 r1
              Hco Hstore Hwrite) as [Hpos Hw1].
  fold t computed in Hpos, Hw1.
  set (seconds := if canBeRevalidated resp
                  then number_double computed else computed) in *.
  set (value := {| policy := toObject pol; ttlOverride := co ≫= ttl;
                   body := parsed |}) in *.
  assert (Hlook : fakeable_get t2 ("httpcache:" +:+ key) (store w1)
                  = (Ok (Some value), store w1)).
  { rewrite Hw1. cbn [store keyValueCache PrefixingKeyValueCache kv_set
                        FakeableKeyValueCache].
    unfold fakeable_set, fakeable_get, FakeableTTLTestingCache.
    cbn [snd ttl default from_option id].
    rewrite lookup_insert_eq.
    destruct seconds as [c |]; cbn [truthy_number integer_of];
      [| reflexivity].
    simpl in Hpos. apply Z.leb_gt in Hpos.
    destruct (Z.eqb_spec c 0); [lia |]. cbn [negb].
    destruct (truthy_num (Some (t + c * 1000))); cbn [andb];
      [| reflexivity].
    destruct (Z.leb_spec (t + c * 1000) t2); [lia | reflexivity]. }
  unfold fetch. cbv zeta. rewrite Hkey.
  rewrite (bool_decide_eq_false_2 _ (with_default_method_not_head _ Hm)).
  assert (Hs' : skipCache (with_default_method requestOpts2) <> Some true)
    by exact Hs.
  rewrite (bool_decide_eq_false_2 _ Hs'). cbn [negb].
  unfold bind at 1. unfold call_get.
  cbn [env store trace keyValueCache PrefixingKeyValueCache kv_get
         FakeableKeyValueCache].
  fold t2. rewrite Hlook.
  unfold fetch_hit, bind, lift, now, ret. cbn [policy ttlOverride body value env].
  rewrite Hround. fold t2. rewrite Hfresh. reflexivity.
Qed.

End WriteThenRead.

(* ------------------------------------------------------------------ *)
(** * The further theorems at work *)

Ltac distinct_names :=
  vm_compute;
  repeat (apply List.NoDup_cons; [simpl; intuition discriminate |]);
  apply List.NoDup_nil.

(** Two keys of the testing store. *)
Lemma fakeable_keys_independent_witness :
  "a" <> "b"
  /\ fst (fakeable_get 5 "b" (snd (fakeable_set 0 "a" stored_entry None ∅)))
     = fst (fakeable_get 5 "b" (∅ : Store))
  /\ snd (fakeable_get 5 "a" (∅ : Store)) !! "b" = (∅ : Store) !! "b".
Proof.
  assert (Hne : "a" <> "b") by discriminate.
  split; [exact Hne |].
  pose proof (fakeable_keys_independent 0 5 "a" "b" stored_entry None
                (∅ : Store) Hne) as (H1 & H2 & _).
  split; [exact H1 | exact H2].
Defined.

(** The headers of [fresh_reply]. *)
Lemma nodeFetchHeaders_desingletonized_witness :
  List.NoDup (map fst (raw (response_headers fresh_reply)))
  /\ nodeFetchHeadersToCachePolicyHeaders (response_headers fresh_reply)
     = [("content-type", One "application/json");
        ("cache-control", One "max-age=60"); ("etag", One "v1")].
Proof.
  assert (Hnd : List.NoDup (map fst (raw (response_headers fresh_reply))))
    by distinct_names.
  split; [exact Hnd |].
  rewrite (nodeFetchHeaders_desingletonized (response_headers fresh_reply) Hnd).
  reflexivity.
Defined.

(** An entity tag and two cookies. *)
Lemma cached_headers_round_trip_witness :
  let hs := [("etag", One "v1"); ("set-cookie", Many ["a=1"; "b=2"])] in
  Forall settled_header hs
  /\ List.NoDup (map fst hs)
  /\ cachePolicyHeadersToNodeFetchHeadersInit hs
     = [("etag", "v1"); ("set-cookie", "a=1"); ("set-cookie", "b=2")]
  /\ nodeFetchHeadersToCachePolicyHeaders
       (newNodeFetchHeaders (cachePolicyHeadersToNodeFetchHeadersInit hs))
     = hs.
Proof.
  intros hs.
  assert (Hall : Forall settled_header hs).
  { repeat constructor; simpl; discriminate. }
  assert (Hnd : List.NoDup (map fst hs)) by distinct_names.
  split; [exact Hall |]. split; [exact Hnd |]. split; [reflexivity |].
  exact (cached_headers_round_trip hs Hall Hnd).
Defined.

(** An array, an empty string and a string, on their way to the
    transport. *)
Lemma fetcher_headers_lookup_witness :
  let hs := [("accept", Many ["text/html"; "application/json"]);
             ("x-trace", One ""); ("if-none-match", One "v1")] in
  List.NoDup (map fst hs)
  /\ obj_get (cachePolicyHeadersToFetcherHeadersInit hs) "accept"
     = Some "text/html, application/json"
  /\ obj_get (cachePolicyHeadersToFetcherHeadersInit hs) "x-trace" = None
  /\ obj_get (cachePolicyHeadersToFetcherHeadersInit hs) "if-none-match"
     = Some "v1".
Proof.
  intros hs.
  assert (Hnd : List.NoDup (map fst hs)) by distinct_names.
  split; [exact Hnd |].
  split; [exact (fetcher_headers_lookup hs "accept" Hnd) |].
  split; [exact (fetcher_headers_lookup hs "x-trace" Hnd) |].
  exact (fetcher_headers_lookup hs "if-none-match" Hnd).
Defined.

(** The stale world over a store whose [get] rejects. *)
Lemma store_read_failure_fails_fetch_witness :
  let failing := Faults.ReadFailing TestStore "store down" in
  let looked_up :=
    @kv_get _ _ (keyValueCache failing) (dateNow (env stale_world)) u
      (store stale_world) in
  method (GET None) <> Some "HEAD"
  /\ skipCache (GET None) <> Some true
  /\ looked_up = (Rejected "store down", store stale_world)
  /\ fetch evaluator failing environment parseResponseBody u (GET None) None
       stale_world
     = (Rejected "store down",
        {| env := env stale_world; store := store stale_world;
           trace := trace stale_world ++ [EvGet u] |}).
Proof.
  intros failing looked_up.
  assert (Hm : method (GET None) <> Some "HEAD") by discriminate.
  assert (Hs : skipCache (GET None) <> Some true) by discriminate.
  assert (Hg : looked_up = (Rejected "store down", store stale_world))
    by reflexivity.
  split; [exact Hm |]. split; [exact Hs |]. split; [exact Hg |].
  exact (store_read_failure_fails_fetch evaluator failing environment
           parseResponseBody u (GET None) None "store down" (store stale_world)
           stale_world Hm Hs Hg).
Defined.

(** The storage decision for [fresh_reply] over a store whose [set]
    rejects. *)
Lemma storage_decision_never_rejects_witness :
  let failing := Faults.WriteFailing TestStore "disk full" in
  let out :=
    storeResponseAndReturnClone evaluator failing environment
      u fresh_reply (Structured "[1]") (GET None) stored_policy u None
      (world 1000 [] ∅) in
  resolveCacheOptions None u fresh_reply (GET None) = Ok None
  /\ (exists promise,
        fst out = Ok {| response := fresh_reply; parsedBody := Structured "[1]";
                        responseFromCache := None; cacheWritePromise := promise |})
  /\ fst out = Ok {| response := fresh_reply; parsedBody := Structured "[1]";
                    responseFromCache := None;
                    cacheWritePromise := Some (Rejected "disk full") |}.
Proof.
  intros failing out. split; [reflexivity |]. split.
  - destruct (storage_decision_never_rejects evaluator failing environment
                u fresh_reply (Structured "[1]") (GET None) stored_policy u None
                None (world 1000 [] ∅) eq_refl) as (promise & Hfst & _).
    exists promise. exact Hfst.
  - vm_compute. reflexivity.
Defined.

(** The write of [fresh_reply] over the testing store, without cache
    options and with a [ttl] of [NaN]. *)
Lemma written_item_matches_result_witness :
  let w := world 1000 [] ∅ in
  let decided cacheOptions :=
    storeResponseAndReturnClone evaluator TestStore environment
      u fresh_reply (Structured "[1]") (GET None) stored_policy u cacheOptions w in
  let r := {| response := fresh_reply; parsedBody := Structured "[1]";
              responseFromCache := None; cacheWritePromise := Some (Ok ()) |} in
  let nan := {| ttl := Some NaN; others := [] |} in
  decided None = (Ok r, snd (decided None))
  /\ decided (Some (Static nan)) = (Ok r, snd (decided (Some (Static nan))))
  /\ cacheWritePromise r <> None
  /\ (exists seconds,
        trace (snd (decided None))
        = [EvSet u stored_entry (Some {| ttl := Some (Int seconds); others := [] |})]
        /\ 0 < seconds)
  /\ trace (snd (decided (Some (Static nan))))
     = [EvSet u (override_entry NaN) (Some {| ttl := Some NaN; others := [] |})].
Proof.
  intros w decided r nan.
  assert (Hout : decided None = (Ok r, snd (decided None)))
    by (apply outcome_of_result; vm_compute; reflexivity).
  assert (Hnan : decided (Some (Static nan))
                 = (Ok r, snd (decided (Some (Static nan)))))
    by (apply outcome_of_result; vm_compute; reflexivity).
  assert (Hw : cacheWritePromise r <> None) by discriminate.
  split; [exact Hout |]. split; [exact Hnan |]. split; [exact Hw |]. split.
  - destruct (written_item_matches_result evaluator TestStore environment
                u fresh_reply (Structured "[1]") (GET None) stored_policy u None
                None w (snd (decided None)) r eq_refl Hout Hw)
      as ([seconds |] & Ht & Hpos & _); [| discriminate Hpos].
    exists seconds. split; [exact Ht | exact Hpos].
  - destruct (written_item_matches_result evaluator TestStore environment
                u fresh_reply (Structured "[1]") (GET None) stored_policy u
                (Some (Static nan)) (Some nan) w (snd (decided (Some (Static nan))))
                r eq_refl Hnan Hw)
      as (seconds & Ht & _ & [Hnone | [[_ ->] | (o & Ho & _)]]);
      [discriminate Hnone | exact Ht | discriminate Ho].
Defined.

(** The exact condition of a write, on the write of [fresh_reply], which
    has 60 seconds to live. *)
Lemma cache_write_iff_witness :
  let w := world 1000 [] ∅ in
  let out :=
    storeResponseAndReturnClone evaluator TestStore environment
      u fresh_reply (Structured "[1]") (GET None) stored_policy u None w in
  let r := {| response := fresh_reply; parsedBody := Structured "[1]";
              responseFromCache := None; cacheWritePromise := Some (Ok ()) |} in
  resolveCacheOptions None u fresh_reply (GET None) = Ok None
  /\ out = (Ok r, snd out)
  /\ (cacheWritePromise r <> None
      <-> method (GET None) = Some "GET" /\ storable stored_policy = true
          /\ 500 <= timeToLive (dateNow (env w)) stored_policy).
Proof.
  intros w out r.
  assert (Hout : out = (Ok r, snd out))
    by (apply outcome_of_result; vm_compute; reflexivity).
  split; [reflexivity |]. split; [exact Hout |].
  exact (cache_write_iff evaluator TestStore environment parseResponseBody
           u fresh_reply (Structured "[1]") (GET None) stored_policy u None
           None w (snd out) r eq_refl Hout).
Defined.

(** A fresh entry, a stale entry and no entry while the origin cannot be
    reached: the first is served, the others are refused. *)
Lemma without_network_only_fresh_hits_witness :
  let down := world 5000 [] (store after_miss) in
  let out := run_fetch u (GET None) None down in
  (forall u' request, fst (httpFetch u' request (env down)) = Rejected "network error")
  /\ (forall r, fst out = Ok r -> responseFromCache r = Some true)
  /\ (exists r, fst out = Ok r)
  /\ fst (run_fetch u (GET None) None (world 100000 [] (store after_miss)))
     = Rejected "network error".
Proof.
  intros down out.
  assert (Hdown : forall u' request,
            fst (httpFetch u' request (env down)) = Rejected "network error")
    by (intros; reflexivity).
  split; [exact Hdown |]. split.
  - exact (proj1 (without_network_only_fresh_hits evaluator TestStore environment
                    parseResponseBody u (GET None) None "network error" down
                    Hdown)).
  - split; [eexists; vm_compute; reflexivity | vm_compute; reflexivity].
Defined.

(** The fresh entry, served 4 seconds after it was stored. *)
Lemma served_from_cache_is_stored_entry_witness :
  let w := world 5000 [] (store after_miss) in
  let out := run_fetch u (GET None) None w in
  let r :=
    {| response :=
         newNodeFetchResponse (Some u) 200
           (cachePolicyHeadersToNodeFetchHeadersInit (resHeaders (state stored_policy)));
       parsedBody := Structured "[1]";
       responseFromCache := Some true;
       cacheWritePromise := None |} in
  out = (Ok r, snd out)
  /\ responseFromCache r = Some true
  /\ exists entry,
       fst (@kv_get _ _ (keyValueCache TestStore) (dateNow (env w)) u (store w))
       = Ok (Some entry)
       /\ parsedBody r = body entry
       /\ trace (snd out) = trace w ++ [EvGet u]
       /\ env (snd out) = env w.
Proof.
  intros w out r.
  assert (Hout : out = (Ok r, snd out))
    by (apply outcome_of_result; vm_compute; reflexivity).
  split; [exact Hout |]. split; [reflexivity |].
  destruct (served_from_cache_is_stored_entry evaluator TestStore environment
              parseResponseBody u (GET None) None w (snd out) r Hout eq_refl)
    as (entry & s' & pol & Hget & _ & Hbody & _ & _ & Hw').
  exists entry. split; [exact (f_equal fst Hget) |]. split; [exact Hbody |].
  rewrite Hw'. split; reflexivity.
Defined.

(** The stale entry when the origin answers with a new body. *)
Lemma modified_revalidation_serves_new_body_witness :
  let w := world 100000 [Ok changed_reply] (store after_miss) in
  let pol := clear_url stored_policy in
  let sent := revalidation_request evaluator u (GET None) pol in
  let pol' := policyOf 100000 (policyRequestFrom u sent)
                (policyResponseFrom changed_reply) in
  let out :=
    fetch_revalidate evaluator TestStore environment parseResponseBody
      u (GET None) u None pol (Structured "[1]") w in
  let r :=
    {| response :=
         newNodeFetchResponse (Some u) 200
           (cachePolicyHeadersToNodeFetchHeadersInit (resHeaders (state pol')));
       parsedBody := Structured "[2]";
       responseFromCache := None;
       cacheWritePromise := Some (Ok ()) |} in
  httpFetch u sent (env w) = (Ok changed_reply, {| clock := 100000; replies := [] |})
  /\ revalidatedPolicy 100000 pol (policyRequestFrom u sent)
       (policyResponseFrom changed_reply) = Ok (pol', true)
  /\ out = (Ok r, snd out)
  /\ parseResponseBody changed_reply = Ok (Structured "[2]")
  /\ url (response r) = Some u.
Proof.
  intros w pol sent pol' out r.
  assert (Hf : httpFetch u sent (env w)
               = (Ok changed_reply, {| clock := 100000; replies := [] |}))
    by reflexivity.
  assert (Hrev : revalidatedPolicy 100000 pol (policyRequestFrom u sent)
                   (policyResponseFrom changed_reply) = Ok (pol', true))
    by reflexivity.
  assert (Hout : out = (Ok r, snd out))
    by (apply outcome_of_result; vm_compute; reflexivity).
  split; [exact Hf |]. split; [exact Hrev |]. split; [exact Hout |].
  destruct (modified_revalidation_serves_new_body evaluator TestStore environment
              parseResponseBody u (GET None) u None pol (Structured "[1]")
              changed_reply {| clock := 100000; replies := [] |} pol' w (snd out) r
              Hf Hrev Hout) as (Hparse & Hresp & _).
  split; [exact Hparse |]. rewrite Hresp. reflexivity.
Defined.

(** The first GET of the scenario. *)
Lemma miss_returns_live_response_witness :
  let w := world 1000 [Ok fresh_reply] ∅ in
  let out :=
    fetch_miss evaluator TestStore environment parseResponseBody
      u (GET None) u None w in
  let r := {| response := fresh_reply; parsedBody := Structured "[1]";
              responseFromCache := None; cacheWritePromise := Some (Ok ()) |} in
  out = (Ok r, snd out)
  /\ exists n',
       httpFetch u (GET None) (env w) = (Ok fresh_reply, n')
       /\ parseResponseBody fresh_reply = Ok (Structured "[1]").
Proof.
  intros w out r.
  assert (Hout : out = (Ok r, snd out))
    by (apply outcome_of_result; vm_compute; reflexivity).
  split; [exact Hout |].
  destruct (miss_returns_live_response evaluator TestStore environment
              parseResponseBody u (GET None) u None w (snd out) r Hout)
    as (n' & Hf & Hparse & _).
  exists n'. split; [exact Hf | exact Hparse].
Defined.

(** Two GETs in a row over the default store: the second one goes to the
    origin like the first. *)
Lemma noop_cache_always_goes_to_origin_witness :
  let first :=
    fetch evaluator NoopKeyValueCache environment parseResponseBody u (GET None) None
      {| env := {| clock := 1000; replies := [Ok fresh_reply; Ok changed_reply] |};
         store := tt; trace := [] |} in
  let again :=
    fetch evaluator NoopKeyValueCache environment parseResponseBody u (GET None) None
      (snd first) in
  let r := {| response := changed_reply; parsedBody := Structured "[2]";
              responseFromCache := None; cacheWritePromise := Some (Ok ()) |} in
  method (GET None) <> Some "HEAD"
  /\ again = (Ok r, snd again)
  /\ responseFromCache r = None
  /\ exists n',
       httpFetch u (with_default_method (GET None)) (env (snd first))
       = (Ok changed_reply, n').
Proof.
  intros first again r.
  assert (Hm : method (GET None) <> Some "HEAD") by discriminate.
  assert (Hout : again = (Ok r, snd again))
    by (apply outcome_of_result; vm_compute; reflexivity).
  split; [exact Hm |]. split; [exact Hout |].
  destruct (noop_cache_always_goes_to_origin evaluator environment
              parseResponseBody u (GET None) None (snd first) (snd again) r
              Hm Hout) as (Hflag & n' & Hf & _).
  split; [exact Hflag |]. exists n'. exact Hf.
Defined.

(** [fresh_reply] is stored under the key [u] at time 1000 and asked for
    under another URL, with [u] as cache key, at time 30000. *)
Lemma written_response_is_served_back_witness :
  let w := world 1000 [] ∅ in
  let out :=
    storeResponseAndReturnClone evaluator TestStore environment
      u fresh_reply (Structured "[1]") (GET None) stored_policy u None w in
  let r1 := {| response := fresh_reply; parsedBody := Structured "[1]";
               responseFromCache := None; cacheWritePromise := Some (Ok ()) |} in
  let shared :=
    Some {| cacheKey := Some u; cacheOptions := None;
            httpCacheSemanticsCachePolicyOptions := None |} in
  let n2 := {| clock := 30000; replies := [] |} in
  resolveCacheOptions None u fresh_reply (GET None) = Ok None
  /\ out = (Ok r1, snd out)
  /\ cacheWritePromise r1 <> None
  /\ fromObject (toObject stored_policy) = Ok stored_policy
  /\ 30000 < 1000 + 120 * 1000
  /\ fresh evaluator 30000 (clear_url stored_policy) None
       (policyRequestFrom "/y" (with_default_method (GET None))) = true
  /\ fst (run_fetch "/y" (GET None) shared
            {| env := n2; store := store (snd out); trace := trace (snd out) |})
     = Ok {| response :=
               newNodeFetchResponse (Some u) 200
                 (cachePolicyHeadersToNodeFetchHeadersInit
                    (resHeaders (state stored_policy)));
             parsedBody := Structured "[1]";
             responseFromCache := Some true;
             cacheWritePromise := None |}.
Proof.
  intros w out r1 shared n2.
  assert (Hout : out = (Ok r1, snd out))
    by (apply outcome_of_result; vm_compute; reflexivity).
  assert (Hw : cacheWritePromise r1 <> None) by discriminate.
  assert (Hearly : 30000 < 1000 + 120 * 1000) by lia.
  split; [reflexivity |]. split; [exact Hout |]. split; [exact Hw |].
  split; [reflexivity |]. split; [exact Hearly |]. split; [reflexivity |].
  unfold run_fetch.
  rewrite (written_response_is_served_back evaluator environment parseResponseBody
             u fresh_reply (Structured "[1]") (GET None) stored_policy u None None
             r1 "/y" (GET None) shared n2 w (snd out)
             eq_refl Hout Hw ltac:(discriminate) ltac:(discriminate)
             eq_refl eq_refl Hearly eq_refl).
  reflexivity.
Defined.
